(** * oauth_dispatch: restricted applications, scoped applications and the
      authorization view override

    A shallow embedding of
    - [openedx/core/djangoapps/oauth_dispatch/models.py],
    - [openedx/core/djangoapps/oauth_dispatch/scopes.py],
    - [openedx/core/djangoapps/oauth_dispatch/dot_overrides/views.py],
    followed by the properties of the specification that concern them. *)

From Stdlib Require Import ZArith Lia Bool.
From stdpp Require Import base option list strings gmap.

Local Open Scope string_scope.
Local Open Scope Z_scope.
Local Open Scope list_scope.

(** ** Python exceptions and results *)

(** The exception classes that the embedded code can raise or let through. *)
Inductive exn : Type :=
| OAuthToolkitError (error : string)
| KeyError (key : string)
| DoesNotExist
| MultipleObjectsReturned
| AssertionError
| TypeError
| AttributeError (name : string).

(** A Python expression either evaluates to a value or raises. *)
Inductive result (A : Type) : Type :=
| Ok (a : A)
| Raise (e : exn).
Arguments Ok {A} a.
Arguments Raise {A} e.

(** ** Python's [datetime], as far as [==] on aware values needs it *)

Module PyDatetime.

(** An aware [datetime]: the wall-clock fields and the offset of its
    [tzinfo] east of UTC, in minutes.  [AccessToken.expires] is a Django
    [DateTimeField]; the platform stores and loads it timezone-aware. *)
Record datetime : Type := mk_datetime {
  year : Z;
  month : Z;
  day : Z;
  hour : Z;
  minute : Z;
  second : Z;
  microsecond : Z;
  utcoffset : Z
}.

Definition _is_leap (y : Z) : bool :=
  (y mod 4 =? 0) && (negb (y mod 100 =? 0) || (y mod 400 =? 0)).

Definition _days_before_year (y : Z) : Z :=
  let p := y - 1 in p * 365 + p / 4 - p / 100 + p / 400.

Definition _DAYS_IN_MONTH (m : Z) : Z :=
  match m with
  | 1 => 31 | 2 => 28 | 3 => 31 | 4 => 30 | 5 => 31 | 6 => 30
  | 7 => 31 | 8 => 31 | 9 => 30 | 10 => 31 | 11 => 30 | 12 => 31
  | _ => 0
  end.

Definition _days_in_month (y m : Z) : Z :=
  if (m =? 2) && _is_leap y then 29 else _DAYS_IN_MONTH m.

Definition _DAYS_BEFORE_MONTH (m : Z) : Z :=
  match m with
  | 1 => 0 | 2 => 31 | 3 => 59 | 4 => 90 | 5 => 120 | 6 => 151
  | 7 => 181 | 8 => 212 | 9 => 243 | 10 => 273 | 11 => 304 | 12 => 334
  | _ => 0
  end.

Definition _days_before_month (y m : Z) : Z :=
  _DAYS_BEFORE_MONTH m + (if (2 <? m) && _is_leap y then 1 else 0).

Definition _ymd2ord (y m d : Z) : Z :=
  _days_before_year y + _days_before_month y m + d.

(** What the [datetime] constructor accepts. *)
Definition valid_datetime (t : datetime) : Prop :=
  1 <= year t <= 9999 /\
  1 <= month t <= 12 /\
  1 <= day t <= _days_in_month (year t) (month t) /\
  0 <= hour t < 24 /\
  0 <= minute t < 60 /\
  0 <= second t < 60 /\
  0 <= microsecond t < 1000000 /\
  -1440 < utcoffset t < 1440.

(** Microseconds between 0001-01-01T00:00:00 UTC (shifted by one day, as
    ordinals start at 1) and the instant [t] denotes. *)
Definition utc_micros (t : datetime) : Z :=
  ((((_ymd2ord (year t) (month t) (day t) * 24 + hour t) * 60
     + minute t - utcoffset t) * 60) + second t) * 1000000
  + microsecond t.

(** The wall-clock fields compared as a tuple. *)
Definition same_fields (a b : datetime) : bool :=
  (year a =? year b) && (month a =? month b) && (day a =? day b) &&
  (hour a =? hour b) && (minute a =? minute b) &&
  (second a =? second b) && (microsecond a =? microsecond b).

(** [a == b] on two aware values: with equal offsets the fields are
    compared, otherwise the difference [a - b] is tested for zero. *)
Definition datetime_eq (a b : datetime) : bool :=
  if utcoffset a =? utcoffset b then same_fields a b
  else utc_micros a - utc_micros b =? 0.

(** [pytz.utc] *)
Definition utc : Z := 0.

(** [datetime(1970, 1, 1, tzinfo=utc)] *)
Definition EPOCH : datetime := mk_datetime 1970 1 1 0 0 0 0 utc.

End PyDatetime.

(** ** models.py *)

Module Models.
Import PyDatetime.

(** [', '.join(...)] and friends: [sep.join(parts)]. *)
Definition join (sep : string) (parts : list string) : string :=
  String.concat sep parts.

(** Associates an organization to an application, with the provider type
    of the organization. *)
Record ScopedApplicationOrganization : Type := mk_organization {
  short_name : string;
  provider_type : string
}.

(** [ScopedApplicationOrganization.CONTENT_PROVIDER_TYPE] *)
Definition CONTENT_PROVIDER_TYPE : string := "content_org".

(** [ScopedApplicationOrganization.ORGANIZATION_PROVIDER_TYPES]: the
    choices of [provider_type], each with its label. *)
Definition ORGANIZATION_PROVIDER_TYPES : list (string * string) :=
  [(CONTENT_PROVIDER_TYPE, "Content Provider")].

(** A value of the [provider_type] field that its [choices] admit. *)
Definition valid_provider_type (p : string) : Prop :=
  In p (map fst ORGANIZATION_PROVIDER_TYPES).

(** The application model.  [scopes] is [None] for an application model
    without that field (the stock model), and the declared list for a
    [ScopedApplication]; [organizations] is the reverse relation of
    [ScopedApplicationOrganization.application], in the order
    [self.organizations.all()] yields it. *)
Record Application : Type := mk_application {
  id : Z;
  client_id : string;
  name : string;
  authorization_grant_type : string;
  skip_authorization : bool;
  scopes : option (list string);
  organizations : list ScopedApplicationOrganization
}.

(** Modelled from the spec: the grant-type constants of the toolkit's
    [AbstractApplication], which [ScopedApplication] inherits
    ([self.GRANT_CLIENT_CREDENTIALS]); the spec names the grant types
    client-credentials and authorization-code. *)
Definition GRANT_CLIENT_CREDENTIALS : string := "client-credentials".
Definition GRANT_AUTHORIZATION_CODE : string := "authorization-code".

(** [ScopedApplication.FILTER_USER_ME] *)
Definition FILTER_USER_ME : string := "user:me".

(** [ScopedApplication.authorization_filters] *)
Definition authorization_filters (self : Application) : list string :=
  let filters :=
    map (fun org => join ":" [provider_type org; short_name org])
        (organizations self) in
  if String.eqb (authorization_grant_type self) GRANT_CLIENT_CREDENTIALS
  then (filters ++ [FILTER_USER_ME])%list
  else filters.

(** The toolkit's access token, with the fields this code reads or
    writes: the owning user and application (by primary key), the expiry
    and the space-delimited scope string recorded at issuance. *)
Record AccessToken : Type := mk_token {
  token_user : Z;
  token_application : Z;
  expires : datetime;
  scope : string
}.

(** [access_token.expires = value] *)
Definition setattr_expires (value : datetime) (t : AccessToken)
  : AccessToken :=
  {| token_user := token_user t;
     token_application := token_application t;
     expires := value;
     scope := scope t |}.

(** The interpreter state a call runs in: the live [AccessToken]
    instances by object identity (two names for one instance are one key),
    and the wall clock. *)
Record pystate : Type := mk_pystate {
  heap : gmap nat AccessToken;
  now : datetime
}.

(** [RestrictedApplication.set_access_token_as_expired]: assigns the
    attribute of the instance passed in and returns nothing. *)
Definition set_access_token_as_expired (access_token : nat) (s : pystate)
  : pystate :=
  {| heap := alter (setattr_expires EPOCH) access_token (heap s);
     now := now s |}.

(** [RestrictedApplication.verify_access_token_as_expired], on the
    instance passed in. *)
Definition verify_access_token_as_expired (access_token : AccessToken)
  : bool :=
  datetime_eq (expires access_token) EPOCH.

(** The filter tag of one organization: the element of the comprehension
    in [authorization_filters]. *)
Definition tag_of (org : ScopedApplicationOrganization) : string :=
  join ":" [provider_type org; short_name org].

(** The marker that lists an application as restricted: a row holding
    the foreign key [application] and nothing else. *)
Record RestrictedApplication : Type := mk_restricted_application {
  restricted_application : Application
}.

(** [RestrictedApplication.__unicode__] *)
Definition RestrictedApplication__unicode__ (self : RestrictedApplication)
  : string :=
  "<RestrictedApplication '" +:+ name (restricted_application self) +:+ "'>".

(** [ScopedApplication.__unicode__] *)
Definition ScopedApplication__unicode__ (self : Application) : string :=
  "<ScopedApplication '" +:+ name self +:+ "'>".

(** [ScopedApplicationOrganization.__unicode__], with [application] the
    row that [self.application] points to. *)
Definition ScopedApplicationOrganization__unicode__
  (application : Application) (self : ScopedApplicationOrganization)
  : string :=
  "<ScopedApplicationOrganization '" +:+ name application +:+ "':'"
  +:+ short_name self +:+ "'>".

(** The declaration of [ScopedApplication.scopes]: a [ListCharField] of at
    most [size] items, each a [CharField] of at most 32 characters, kept
    in one column of [max_length] characters as a comma-separated
    string. *)
Definition scopes_size : nat := 25.
Definition scopes_base_max_length : nat := 32.
Definition scopes_max_length : nat := 25 * 33.

(** The column value of a list of scopes: the items joined by commas. *)
Definition scopes_column (value : list string) : string := join "," value.

(** What the declared [size] and the [max_length] of the base field admit. *)
Definition scopes_items_valid (value : list string) : Prop :=
  (length value <= scopes_size)%nat
  /\ Forall (fun item => (String.length item <= scopes_base_max_length)%nat)
            value.

End Models.

(** ** scopes.py *)

Module Scopes.
Import Models.

(** The values passed to [get_available_scopes] and [hasattr] that are
    modelled: [None], a plain string and an instance of the application
    model.  Objects of other classes are not represented. *)
Inductive pyobj : Type :=
| PyNone
| PyStr (s : string)
| PyApplication (a : Application).

Section Backend.

(** [oauth2_settings.SCOPES]: scope name to description, returned by
    [SettingsScopes.get_all_scopes]. *)
Variable SCOPES : gmap string string.

(** The attribute names of the built-in [str] type. *)
Variable str_attribute : string -> bool.

(** The fields of the application model. *)
Definition application_attribute (a : Application) (n : string) : bool :=
  if String.eqb n "scopes" then bool_decide (is_Some (scopes a))
  else bool_decide (n ∈ ["id"; "client_id"; "name";
                         "authorization_grant_type";
                         "skip_authorization"; "organizations";
                         "authorization_filters"]).

(** Whether [getattr(obj, n)] succeeds. *)
Definition has_attribute (obj : pyobj) (n : string) : bool :=
  match obj with
  | PyNone => false
  | PyStr _ => str_attribute n
  | PyApplication a => application_attribute a n
  end.

(** The built-in [hasattr(obj, name)]: the object comes first, and the
    name must be a string, else [TypeError] is raised. *)
Definition hasattr (obj name : pyobj) : result bool :=
  match name with
  | PyStr n => Ok (has_attribute obj n)
  | _ => Raise TypeError
  end.

(** [application.scopes] *)
Definition getattr_scopes (application : pyobj)
  : result (list string) :=
  match application with
  | PyApplication a =>
      match scopes a with
      | Some l => Ok l
      | None => Raise (AttributeError "scopes")
      end
  | _ => Raise (AttributeError "scopes")
  end.

(** [SettingsScopes.get_all_scopes] *)
Definition get_all_scopes : gmap string string := SCOPES.

(** Modelled from the spec: [SettingsScopes.get_available_scopes] of the
    toolkit, the default that the subclass falls back to; the spec gives
    it as the key set of the global registry. *)
Definition SettingsScopes_get_available_scopes (application : pyobj)
  : gset string :=
  dom SCOPES.

(** [ApplicationModelScopes.get_available_scopes] *)
Definition get_available_scopes (application : pyobj)
  : result (gset string) :=
  match hasattr (PyStr "scopes") application with
  | Raise e => Raise e
  | Ok true =>
      match getattr_scopes application with
      | Raise e => Raise e
      | Ok l => Ok (list_to_set l ∩ dom get_all_scopes)
      end
  | Ok false => Ok (SettingsScopes_get_available_scopes application)
  end.

(** The capability check the spec describes, with the arguments of
    [hasattr] in the order object, name: the reading of the spec that
    [get_available_scopes] is compared with. *)
Definition availableScopes_spec (application : pyobj)
  : result (gset string) :=
  match hasattr application (PyStr "scopes") with
  | Raise e => Raise e
  | Ok true =>
      match getattr_scopes application with
      | Raise e => Raise e
      | Ok l => Ok (list_to_set l ∩ dom get_all_scopes)
      end
  | Ok false => Ok (SettingsScopes_get_available_scopes application)
  end.

End Backend.

End Scopes.

(** ** dot_overrides/views.py *)

Module Views.
Import Models.

(** The request, as far as the view reads it: the query parameters
    [request.GET] and the authenticated [request.user] (primary key). *)
Record request : Type := mk_request {
  GET : gmap string string;
  request_user : Z
}.

(** The values stored in the view's keyword arguments: lists of strings
    ([scopes], [scopes_descriptions]), strings, the application and the
    form, which is represented by its initial data. *)
Inductive kwval : Type :=
| KwList (l : list string)
| KwStr (s : string)
| KwApplication (a : Application)
| KwForm (initial : gmap string string).

(** The responses a GET on the view ends in. *)
Inductive response : Type :=
| HttpResponseUriRedirect (uri : string)
| TemplateResponse (context : gmap string kwval)
| ErrorResponse (error : string)
| BaseResponse (content : string).

(** The persistent store: the application and the access-token tables. *)
Record world : Type := mk_world {
  applications : list Application;
  access_tokens : list AccessToken
}.

(** What a call leaves behind, in order: the calls into the toolkit and
    into the store that the specification talks about. *)
Inductive event : Type :=
| EvValidate
| EvTokenScan (user application : Z)
| EvIssue (scopes : string) (credentials : gmap string string)
          (allow : bool) (returned : bool)
| EvRender
| EvErrorResponse (error : string)
| EvBase (what : string).

(** A call into the toolkit returns or raises [OAuthToolkitError]. *)
Inductive toolkit_result (A : Type) : Type :=
| Returned (a : A)
| ProtocolError (error : string).
Arguments Returned {A} a.
Arguments ProtocolError {A} error.

(** The parts of django-oauth-toolkit and of the settings that the view
    calls and that are not part of this repository. *)
Class Toolkit : Type := {
  (** [oauth2_settings.REQUEST_APPROVAL_PROMPT] *)
  REQUEST_APPROVAL_PROMPT : string;
  (** [get_scopes_backend().get_all_scopes()] *)
  all_scopes : gmap string string;
  (** [self.validate_authorization_request(request)]: reads the store. *)
  validate_authorization_request :
    request -> world ->
    toolkit_result (list string * gmap string string);
  (** [self.create_authorization_response(request, scopes, credentials,
      allow)]: returns [(uri, headers, body, status)] and may write to the
      store. *)
  create_authorization_response :
    request -> string -> gmap string string -> bool -> world ->
    toolkit_result (string * gmap string string * string * Z) * world;
  (** [self.get_form(self.get_form_class())], built from
      [self.oauth2_data]. *)
  get_form : gmap string kwval -> gmap string string;
  (** [AuthorizationView.get], the handler of the base class: it answers
      every request with a response (protocol errors included, which it
      converts itself), after whatever calls it makes, listed by name. *)
  base_get :
    request -> gmap string kwval -> world ->
    response * world * list string
}.

(** *** Computations: store passing, a log of calls, exceptions *)

Definition M (A : Type) : Type := world -> result A * world * list event.

Definition ret {A} (a : A) : M A := fun w => (Ok a, w, []).

Definition raise {A} (e : exn) : M A := fun w => (Raise e, w, []).

(** The outcome [x] of a computation that ran after the calls [l1]. *)
Definition after {A} (l1 : list event)
  (x : result A * world * list event) : result A * world * list event :=
  match x with
  | (r, w2, l2) => (r, w2, (l1 ++ l2)%list)
  end.

Definition bind {A B} (m : M A) (k : A -> M B) : M B :=
  fun w =>
    match m w with
    | (Ok a, w1, l1) => after l1 (k a w1)
    | (Raise e, w1, l1) => (Raise e, w1, l1)
    end.

Notation "x <- m ;; k" := (bind m (fun x => k))
  (at level 100, m at next level, right associativity).
Notation "m ;;; k" := (bind m (fun _ => k))
  (at level 100, right associativity).

Definition emit (ev : event) : M unit := fun w => (Ok tt, w, [ev]).

Definition of_result {A} (r : result A) : M A := fun w => (r, w, []).

(** [try: body except OAuthToolkitError as error: handler(error)] *)
Definition try_except_OAuthToolkitError {A}
  (body : M A) (handler : string -> M A) : M A :=
  fun w =>
    match body w with
    | (Raise (OAuthToolkitError error), w1, l1) =>
        after l1 (handler error w1)
    | other => other
    end.

(** [assert cond] *)
Definition py_assert (cond : bool) : M unit :=
  if cond then ret tt else raise AssertionError.

(** [d[key]] on a dictionary with string keys *)
Definition getitem {V} (d : gmap string V) (key : string) : result V :=
  match d !! key with
  | Some v => Ok v
  | None => Raise (KeyError key)
  end.

(** [[d[key] for key in keys]] *)
Fixpoint getitems {V} (d : gmap string V) (keys : list string)
  : result (list V) :=
  match keys with
  | [] => Ok []
  | key :: rest =>
      match getitem d key with
      | Raise e => Raise e
      | Ok v =>
          match getitems d rest with
          | Raise e => Raise e
          | Ok vs => Ok (v :: vs)
          end
      end
  end.

(** [get_application_model().objects.get(client_id=...)] *)
Definition objects_get (cid : string) : M Application :=
  fun w =>
    match filter (fun a => client_id a = cid) (applications w) with
    | [] => (Raise DoesNotExist, w, [])
    | [a] => (Ok a, w, [])
    | _ => (Raise MultipleObjectsReturned, w, [])
    end.

(** [user.accesstoken_set.filter(application=application).all()]: every
    token of the user for the application; nothing else is filtered on,
    the expiry in particular. *)
Definition accesstoken_set_filter (user : Z) (application : Application)
  : M (list AccessToken) :=
  fun w =>
    (Ok (filter (fun t => token_user t = user
                          /\ token_application t = id application)
                (access_tokens w)),
     w, [EvTokenScan user (id application)]).

(** The characters that [split()] separates a text on, among the code
    points below 256 that a character of the model holds: tab to carriage
    return, the four information separators, the space, next line and
    the no-break space. *)
Definition is_space (c : Ascii.ascii) : bool :=
  let n := Ascii.nat_of_ascii c in
  (Nat.eqb n 32 || Nat.eqb n 9 || Nat.eqb n 10 || Nat.eqb n 11
   || Nat.eqb n 12 || Nat.eqb n 13
   || Nat.eqb n 28 || Nat.eqb n 29 || Nat.eqb n 30 || Nat.eqb n 31
   || Nat.eqb n 133 || Nat.eqb n 160)%bool.

(** [s.split()], with [word] the characters read since the last
    separator. *)
Fixpoint split_from (word : string) (s : string) : list string :=
  match s with
  | EmptyString =>
      match word with EmptyString => [] | _ => [word] end
  | String c rest =>
      if is_space c then
        match word with
        | EmptyString => split_from EmptyString rest
        | _ => word :: split_from EmptyString rest
        end
      else split_from (word +:+ String c EmptyString) rest
  end.

Definition split (s : string) : list string := split_from EmptyString s.

(** Modelled from the spec: [AccessToken.allow_scopes] of the toolkit,
    the test whether the token's recorded scope set (its space-delimited
    [scope] string) is a superset of the requested scopes. *)
Definition allow_scopes (token : AccessToken) (scopes : list string)
  : bool :=
  forallb (fun s => existsb (String.eqb s) (split (scope token))) scopes.

(** The kind of value stored under [key], where the view reads back what
    it has stored. *)
Definition getitem_application (kwargs : gmap string kwval)
  : result Application :=
  match getitem kwargs "application" with
  | Ok (KwApplication a) => Ok a
  | Ok _ => Raise (AttributeError "id")
  | Raise e => Raise e
  end.

Section View.
Context `{TK : Toolkit}.

(** [request.GET.get("approval_prompt",
    oauth2_settings.REQUEST_APPROVAL_PROMPT)] *)
Definition require_approval (request : request) : string :=
  default REQUEST_APPROVAL_PROMPT (GET request !! "approval_prompt").

(** [self.validate_authorization_request(request)] *)
Definition call_validate (request : request)
  : M (list string * gmap string string) :=
  fun w =>
    match validate_authorization_request request w with
    | Returned r => (Ok r, w, [EvValidate])
    | ProtocolError error =>
        (Raise (OAuthToolkitError error), w, [EvValidate])
    end.

(** [self.create_authorization_response(request=..., scopes=...,
    credentials=..., allow=...)] *)
Definition call_create (request : request) (scopes : string)
  (credentials : gmap string string) (allow : bool)
  : M (string * gmap string string * string * Z) :=
  fun w =>
    match create_authorization_response request scopes credentials
            allow w with
    | (Returned r, w1) =>
        (Ok r, w1, [EvIssue scopes credentials allow true])
    | (ProtocolError error, w1) =>
        (Raise (OAuthToolkitError error), w1,
         [EvIssue scopes credentials allow false])
    end.

(** [super(EdxOAuth2AuthorizationView, self).get(request, ...)] *)
Definition super_get (request : request) (kwargs : gmap string kwval)
  : M response :=
  fun w =>
    match base_get request kwargs w with
    | (r, w1, calls) => (Ok r, w1, map EvBase calls)
    end.

(** [self.render_to_response(...)] on the context data of [kwargs] *)
Definition render_to_response (kwargs : gmap string kwval)
  : M response :=
  emit EvRender ;;; ret (TemplateResponse kwargs).

(** Modelled from the spec: [self.error_response(error)] of the
    toolkit's view, which converts the protocol error into the
    user-facing error response, a redirect or an error page.  What that
    response looks like is the toolkit's business: it is kept opaque as
    [ErrorResponse error], and the call is logged. *)
Definition error_response (error : string) : M response :=
  emit (EvErrorResponse error) ;;; ret (ErrorResponse error).

(** The loop over the past authorizations: [Some] response when the
    body returns from the handler, [None] when the loop runs out. *)
Fixpoint for_token_in (tokens : list AccessToken) (request : request)
  (scopes : list string) (credentials : gmap string string)
  : M (option response) :=
  match tokens with
  | [] => ret None
  | token :: rest =>
      if allow_scopes token scopes then
        issued <-
          call_create request (join " " scopes) credentials true ;;
        let '(uri, headers, body, status) := issued in
        ret (Some (HttpResponseUriRedirect uri))
      else for_token_in rest request scopes credentials
  end.

(** The body of the [try] of [EdxOAuth2AuthorizationView.get]. *)
Definition get_body (request : request) (kwargs : gmap string kwval)
  : M response :=
  let require_approval := require_approval request in
  if negb (String.eqb require_approval "auto_even_if_expired") then
    super_get request kwargs
  else
    validated <- call_validate request ;;
    let '(scopes, credentials) := validated in
    descriptions <- of_result (getitems all_scopes scopes) ;;
    let kwargs := <["scopes_descriptions" := KwList descriptions]> kwargs in
    let kwargs := <["scopes" := KwList scopes]> kwargs in
    cid <- of_result (getitem credentials "client_id") ;;
    application <- objects_get cid ;;
    let kwargs := <["application" := KwApplication application]> kwargs in
    cid <- of_result (getitem credentials "client_id") ;;
    let kwargs := <["client_id" := KwStr cid]> kwargs in
    uri <- of_result (getitem credentials "redirect_uri") ;;
    let kwargs := <["redirect_uri" := KwStr uri]> kwargs in
    rtype <- of_result (getitem credentials "response_type") ;;
    let kwargs := <["response_type" := KwStr rtype]> kwargs in
    state <- of_result (getitem credentials "state") ;;
    let kwargs := <["state" := KwStr state]> kwargs in
    let oauth2_data := kwargs in
    let form := get_form oauth2_data in
    let kwargs := <["form" := KwForm form]> kwargs in
    if skip_authorization application then
      issued <-
        call_create request (join " " scopes) credentials true ;;
      let '(uri, headers, body, status) := issued in
      ret (HttpResponseUriRedirect uri)
    else
      py_assert (String.eqb require_approval "auto_even_if_expired") ;;;
      app <- of_result (getitem_application kwargs) ;;
      tokens <- accesstoken_set_filter (request_user request) app ;;
      returned <- for_token_in tokens request scopes credentials ;;
      match returned with
      | Some r => ret r
      | None => render_to_response kwargs
      end.

(** [EdxOAuth2AuthorizationView.get] *)
Definition get (request : request) (kwargs : gmap string kwval)
  : M response :=
  try_except_OAuthToolkitError (get_body request kwargs) error_response.

(** *** Vocabulary of the properties *)

(** What a request that passes validation has given the view by the
    time it decides: the validated scopes and credentials, the
    descriptions of the scopes, the four credentials it copies, and the
    application registered under the client id. *)
Record validation : Type := mk_validation {
  v_scopes : list string;
  v_credentials : gmap string string;
  v_descriptions : list string;
  v_client_id : string;
  v_redirect_uri : string;
  v_response_type : string;
  v_state : string;
  v_application : Application
}.

Definition passes_validation (request : request) (w : world)
  (v : validation) : Prop :=
  validate_authorization_request request w
  = Returned (v_scopes v, v_credentials v)
  /\ getitems all_scopes (v_scopes v) = Ok (v_descriptions v)
  /\ v_credentials v !! "client_id" = Some (v_client_id v)
  /\ v_credentials v !! "redirect_uri" = Some (v_redirect_uri v)
  /\ v_credentials v !! "response_type" = Some (v_response_type v)
  /\ v_credentials v !! "state" = Some (v_state v)
  /\ filter (fun a => client_id a = v_client_id v) (applications w)
     = [v_application v].

(** The keyword arguments after the view has stored the validated
    request in them, without the form. *)
Definition oauth2_data_of (kwargs : gmap string kwval) (v : validation)
  : gmap string kwval :=
  <["state" := KwStr (v_state v)]>
    (<["response_type" := KwStr (v_response_type v)]>
       (<["redirect_uri" := KwStr (v_redirect_uri v)]>
          (<["client_id" := KwStr (v_client_id v)]>
             (<["application" := KwApplication (v_application v)]>
                (<["scopes" := KwList (v_scopes v)]>
                   (<["scopes_descriptions" :=
                        KwList (v_descriptions v)]> kwargs)))))).

(** The keyword arguments the consent form is rendered from. *)
Definition consent_kwargs (kwargs : gmap string kwval) (v : validation)
  : gmap string kwval :=
  <["form" := KwForm (get_form (oauth2_data_of kwargs v))]>
    (oauth2_data_of kwargs v).

(** The tokens the prior-grant scan goes through. *)
Definition prior_tokens (request : request) (a : Application)
  (w : world) : list AccessToken :=
  filter (fun t => token_user t = request_user request
                   /\ token_application t = id a)
         (access_tokens w).

(** The recorded scope set of [token] is a superset of [scopes]. *)
Definition covers (token : AccessToken) (scopes : list string) : Prop :=
  forall s : string, s ∈ scopes -> s ∈ split (scope token).


Definition is_issue_call (ev : event) : bool :=
  match ev with
  | EvIssue _ _ _ _ => true
  | _ => false
  end.

Definition is_validate_call (ev : event) : bool :=
  match ev with
  | EvValidate => true
  | _ => false
  end.

Definition is_render (ev : event) : bool :=
  match ev with
  | EvRender => true
  | _ => false
  end.

Definition is_token_scan (ev : event) : bool :=
  match ev with
  | EvTokenScan _ _ => true
  | _ => false
  end.

(** How many calls of a kind a log holds. *)
Definition calls (kind : event -> bool) (log : list event) : nat :=
  length (List.filter kind log).

(** The two places of the view that issue the authorization response:
    [create_authorization_response] with [allow=True], then the
    redirect to the URI it returns. *)
Definition grant (request : request) (scopes : list string)
  (credentials : gmap string string) : M response :=
  issued <- call_create request (join " " scopes) credentials true ;;
  let '(uri, headers, body, status) := issued in
  ret (HttpResponseUriRedirect uri).

(** The exceptions of the lookups the view makes between validation and
    its decision. *)
Definition is_lookup_failure (e : exn) : Prop :=
  match e with
  | KeyError _ | DoesNotExist | MultipleObjectsReturned => True
  | _ => False
  end.

(** The ways a GET in mode [auto_even_if_expired] ends: response or
    exception, the store it leaves and the calls it made. *)
Inductive auto_outcome (request : request) (kwargs : gmap string kwval)
  (w : world) : result response * world * list event -> Prop :=
| out_invalid (error : string) :
    validate_authorization_request request w = ProtocolError error ->
    auto_outcome request kwargs w
      (Ok (ErrorResponse error), w,
       [EvValidate; EvErrorResponse error])
| out_lookup_failed (e : exn) (scopes : list string)
    (credentials : gmap string string) :
    validate_authorization_request request w
    = Returned (scopes, credentials) ->
    is_lookup_failure e ->
    auto_outcome request kwargs w (Raise e, w, [EvValidate])
| out_granted (v : validation) (scan : list event) (uri body : string)
    (headers : gmap string string) (status : Z) (w1 : world) :
    passes_validation request w v ->
    (if skip_authorization (v_application v) then scan = []
     else scan = [EvTokenScan (request_user request)
                    (id (v_application v))]
          /\ Exists (fun t => covers t (v_scopes v))
                    (prior_tokens request (v_application v) w)) ->
    create_authorization_response request (join " " (v_scopes v))
      (v_credentials v) true w
    = (Returned (uri, headers, body, status), w1) ->
    auto_outcome request kwargs w
      (Ok (HttpResponseUriRedirect uri), w1,
       EvValidate :: scan
       ++ [EvIssue (join " " (v_scopes v)) (v_credentials v) true true])
| out_refused (v : validation) (scan : list event) (error : string)
    (w1 : world) :
    passes_validation request w v ->
    (if skip_authorization (v_application v) then scan = []
     else scan = [EvTokenScan (request_user request)
                    (id (v_application v))]
          /\ Exists (fun t => covers t (v_scopes v))
                    (prior_tokens request (v_application v) w)) ->
    create_authorization_response request (join " " (v_scopes v))
      (v_credentials v) true w
    = (ProtocolError error, w1) ->
    auto_outcome request kwargs w
      (Ok (ErrorResponse error), w1,
       EvValidate :: scan
       ++ [EvIssue (join " " (v_scopes v)) (v_credentials v) true false;
           EvErrorResponse error])
| out_prompt (v : validation) :
    passes_validation request w v ->
    skip_authorization (v_application v) = false ->
    Forall (fun t => ~ covers t (v_scopes v))
           (prior_tokens request (v_application v) w) ->
    auto_outcome request kwargs w
      (Ok (TemplateResponse (consent_kwargs kwargs v)), w,
       [EvValidate;
        EvTokenScan (request_user request) (id (v_application v));
        EvRender]).

(** The calls the handler of the base class makes. *)
Definition is_base_call (ev : event) : bool :=
  match ev with
  | EvBase _ => true
  | _ => false
  end.

(** An issuance call is made with [allow=True]. *)
Definition issues_with_allow (ev : event) : Prop :=
  match ev with
  | EvIssue _ _ allow _ => allow = true
  | _ => True
  end.

(** The first of the credentials copied after the application lookup that
    the validated credentials lack. *)
Definition first_missing_credential (credentials : gmap string string)
  : option string :=
  List.find (fun key => bool_decide (credentials !! key = None))
            ["redirect_uri"; "response_type"; "state"].

(** A scope name as the protocol has it: not empty and without a
    character that [split()] separates on. *)
Fixpoint no_space (s : string) : bool :=
  match s with
  | EmptyString => true
  | String c rest => negb (is_space c) && no_space rest
  end.

Definition scope_token (s : string) : Prop :=
  s <> EmptyString /\ no_space s = true.

End View.

End Views.

(** ** Concrete data: the scenarios of the specification's properties *)

Module Scenario.
Import PyDatetime Models Scopes Views.

(** An expiry well after the epoch and a clock later still. *)
Definition expiry_2018 : datetime := mk_datetime 2018 6 1 12 0 0 0 utc.
Definition clock_2019 : datetime := mk_datetime 2019 1 1 0 0 0 0 utc.

(** The epoch instant written in a zone one hour east of UTC. *)
Definition epoch_cet : datetime := mk_datetime 1970 1 1 1 0 0 0 60.

(** The organization [org1], a content provider. *)
Definition org1 : ScopedApplicationOrganization :=
  mk_organization "org1" CONTENT_PROVIDER_TYPE.

Definition app_client_credentials : Application :=
  mk_application 7 "client1" "Partner" GRANT_CLIENT_CREDENTIALS false
                 (Some ["read"; "write"; "bogus"]) [org1].

Definition app_authorization_code : Application :=
  mk_application 7 "client1" "Partner" GRANT_AUTHORIZATION_CODE false
                 (Some ["read"; "write"; "bogus"]) [org1].

Definition app_in_house : Application :=
  mk_application 7 "client1" "Partner" GRANT_AUTHORIZATION_CODE true
                 (Some ["read"; "write"; "bogus"]) [org1].

(** The global scope registry. *)
Definition registry : gmap string string :=
  list_to_map [("read", "Read access"); ("write", "Write access");
               ("email", "Email address")].

(** No name is an attribute of [str] here; the scope backend never asks. *)
Definition no_str_attribute (n : string) : bool := false.

(** A token of user 42 for application 7, scoped [read write], already
    marked restricted. *)
Definition restricted_token : AccessToken :=
  mk_token 42 7 EPOCH "read write".

Definition live_token : AccessToken :=
  mk_token 42 7 expiry_2018 "read write".

Definition credentials1 : gmap string string :=
  list_to_map [("client_id", "client1");
               ("redirect_uri", "https://client.example/cb");
               ("response_type", "code");
               ("state", "xyz")].

(** A toolkit that validates the space-separated [scope] parameter
    against the registry and issues a code, recording a fresh token. *)
#[local] Instance toolkit : Toolkit := {|
  REQUEST_APPROVAL_PROMPT := "force";
  all_scopes := registry;
  validate_authorization_request := fun request w =>
    match GET request !! "scope" with
    | Some s =>
        if forallb (fun x => bool_decide (is_Some (registry !! x)))
                   (split s)
        then Returned (split s, credentials1)
        else ProtocolError "invalid_scope"
    | None => ProtocolError "invalid_request"
    end;
  create_authorization_response := fun request scopes credentials allow w =>
    if allow then
      (Returned ("https://client.example/cb?code=abc&state=xyz",
                 ∅, "", 302),
       mk_world (applications w)
                (access_tokens w ++
                 [mk_token (request_user request) 7 expiry_2018 scopes]))
    else (ProtocolError "access_denied", w);
  get_form := fun oauth2_data => ∅;
  base_get := fun request kwargs w =>
    (BaseResponse "consent", w, ["validate_authorization_request";
                                 "render_to_response"])
|}.


Definition request_of (prompt : option string) (scope : string)
  : request :=
  mk_request
    (match prompt with
     | Some p => <["approval_prompt" := p]> {["scope" := scope]}
     | None => {["scope" := scope]}
     end)
    42.

Definition auto_read : request :=
  request_of (Some "auto_even_if_expired") "read".
Definition auto_read_write_email : request :=
  request_of (Some "auto_even_if_expired") "read write email".
Definition default_read : request := request_of None "read".

Definition store (a : Application) (tokens : list AccessToken) : world :=
  mk_world [a] tokens.

(** What validation hands over for the requests above. *)
Definition validated (scopes descriptions : list string)
  (a : Application) : validation :=
  mk_validation scopes credentials1 descriptions "client1"
                "https://client.example/cb" "code" "xyz" a.

Definition validated_read : validation :=
  validated ["read"] ["Read access"] app_authorization_code.

Definition validated_read_write_email (a : Application) : validation :=
  validated ["read"; "write"; "email"]
            ["Read access"; "Write access"; "Email address"] a.

(** The response of the scenario toolkit's issuance. *)
Definition issued_uri : string :=
  "https://client.example/cb?code=abc&state=xyz".

(** Two live instances, and the clock of the scenario. *)
Definition two_tokens : pystate :=
  mk_pystate (<[1%nat := mk_token 43 7 expiry_2018 "read"]>
                {[0%nat := live_token]})
             clock_2019.

(** One instance that already carries the sentinel. *)
Definition marked_token : pystate :=
  mk_pystate {[0%nat := restricted_token]} clock_2019.

(** A second organization of the same application. *)
Definition org2 : ScopedApplicationOrganization :=
  mk_organization "org2" CONTENT_PROVIDER_TYPE.

Definition app_two_organizations : Application :=
  mk_application 8 "client2" "Library" GRANT_CLIENT_CREDENTIALS false
                 (Some ["read"]) [org1; org2].

(** A store in which the client id of the scenario is registered twice,
    and one in which it is not registered. *)
Definition store_duplicate : world :=
  mk_world [app_authorization_code; app_in_house] [].

Definition store_unregistered : world :=
  mk_world [app_two_organizations] [].

(** A toolkit whose validation forgets the [state] of the request. *)
#[local] Instance stateless_toolkit : Toolkit := {|
  REQUEST_APPROVAL_PROMPT := "force";
  all_scopes := registry;
  validate_authorization_request := fun request w =>
    Returned (["read"], delete "state" credentials1);
  create_authorization_response :=
    @create_authorization_response toolkit;
  get_form := fun oauth2_data => ∅;
  base_get := @base_get toolkit
|}.

(** A toolkit whose validation lets a scope through that the registry
    does not describe, and one that returns no client id. *)
#[local] Instance lenient_toolkit : Toolkit := {|
  REQUEST_APPROVAL_PROMPT := "force";
  all_scopes := registry;
  validate_authorization_request := fun request w =>
    Returned (["read"; "admin"; "write"], credentials1);
  create_authorization_response :=
    @create_authorization_response toolkit;
  get_form := fun oauth2_data => ∅;
  base_get := @base_get toolkit
|}.

#[local] Instance anonymous_toolkit : Toolkit := {|
  REQUEST_APPROVAL_PROMPT := "force";
  all_scopes := registry;
  validate_authorization_request := fun request w =>
    Returned (["read"], delete "client_id" credentials1);
  create_authorization_response :=
    @create_authorization_response toolkit;
  get_form := fun oauth2_data => ∅;
  base_get := @base_get toolkit
|}.

(** An explicit [approval_prompt=force]. *)
Definition force_read : request := request_of (Some "force") "read".

(** A deployment whose configured default prompt is
    [auto_even_if_expired]. *)
#[local] Instance auto_default_toolkit : Toolkit := {|
  REQUEST_APPROVAL_PROMPT := "auto_even_if_expired";
  all_scopes := registry;
  validate_authorization_request :=
    @validate_authorization_request toolkit;
  create_authorization_response :=
    @create_authorization_response toolkit;
  get_form := fun oauth2_data => ∅;
  base_get := @base_get toolkit
|}.

End Scenario.


(** * Properties *)

(** ** The epoch sentinel *)

Module DatetimeFacts.
Import PyDatetime.

Lemma days_before_year_1970 : _days_before_year 1970 = 719162.
Proof. reflexivity. Qed.

(** A year has 365 days, or 366 when it is a leap year. *)
Lemma days_before_year_succ (y : Z) :
  _days_before_year (y + 1)
  = _days_before_year y + (if _is_leap y then 366 else 365).
Proof.
  unfold _days_before_year, _is_leap.
  replace (y + 1 - 1) with y by lia.
  destruct (Z.eqb_spec (y mod 4) 0), (Z.eqb_spec (y mod 100) 0),
           (Z.eqb_spec (y mod 400) 0); simpl;
    Z.div_mod_to_equations; lia.
Qed.

Lemma days_before_year_mono (y1 y2 : Z) :
  y1 <= y2 -> _days_before_year y1 + 365 * (y2 - y1) <= _days_before_year y2.
Proof.
  intros H. unfold _days_before_year. Z.div_mod_to_equations. lia.
Qed.

(** The day of the year lies between 1 and the length of the year. *)
Lemma day_of_year_bounds (y m d : Z) :
  1 <= m <= 12 -> 1 <= d <= _days_in_month y m ->
  1 <= _days_before_month y m + d <= (if _is_leap y then 366 else 365).
Proof.
  intros Hm Hd.
  assert (Hcases : m = 1 \/ m = 2 \/ m = 3 \/ m = 4 \/ m = 5 \/ m = 6 \/
                   m = 7 \/ m = 8 \/ m = 9 \/ m = 10 \/ m = 11 \/ m = 12)
    by lia.
  unfold _days_before_month, _days_in_month in *.
  destruct (_is_leap y);
    repeat (destruct Hcases as [-> | Hcases]; [simpl in *; lia |]);
    subst m; simpl in *; lia.
Qed.

(** Only the first of January 1970 has the ordinal of the epoch. *)
Lemma ymd2ord_epoch (y m d : Z) :
  1 <= y <= 9999 -> 1 <= m <= 12 -> 1 <= d <= _days_in_month y m ->
  _ymd2ord y m d = _ymd2ord 1970 1 1 ->
  y = 1970 /\ m = 1 /\ d = 1.
Proof.
  intros Hy Hm Hd Hord.
  pose proof (day_of_year_bounds y m d Hm Hd) as Hdoy.
  change (_ymd2ord 1970 1 1) with 719163 in Hord.
  unfold _ymd2ord in Hord.
  assert (Hyear : y = 1970).
  { destruct (Z_lt_le_dec y 1970) as [Hlt | Hge].
    - exfalso.
      pose proof (days_before_year_succ y) as Hs.
      pose proof (days_before_year_mono (y + 1) 1970 ltac:(lia)) as Hmono.
      rewrite days_before_year_1970 in Hmono.
      destruct (_is_leap y); lia.
    - destruct (Z.eq_dec y 1970) as [-> | Hne]; [reflexivity |].
      exfalso.
      pose proof (days_before_year_mono 1971 y ltac:(lia)) as Hmono.
      change (_days_before_year 1971) with 719527 in Hmono.
      lia. }
  subst y. rewrite days_before_year_1970 in Hord.
  assert (Hcases : m = 1 \/ m = 2 \/ m = 3 \/ m = 4 \/ m = 5 \/ m = 6 \/
                   m = 7 \/ m = 8 \/ m = 9 \/ m = 10 \/ m = 11 \/ m = 12)
    by lia.
  unfold _days_before_month, _days_in_month in *.
  change (_is_leap 1970) with false in *.
  repeat (destruct Hcases as [-> | Hcases]; [simpl in *; lia |]).
  subst m; simpl in *; lia.
Qed.

(** A valid UTC value denotes the epoch instant only if it reads
    1970-01-01 00:00:00.000000. *)
Lemma utc_micros_epoch_fields (t : datetime) :
  valid_datetime t -> utcoffset t = utc ->
  utc_micros t = utc_micros EPOCH ->
  t = EPOCH.
Proof.
  intros (Hy & Hm & Hd & Hh & Hmi & Hs & Hus & Hoff) Hutc Heq.
  destruct t as [y m d h mi s us off]; simpl in *.
  unfold utc in Hutc. subst off.
  unfold utc_micros, EPOCH, utc in Heq; simpl in Heq.
  change (_ymd2ord 1970 1 1) with 719163 in Heq.
  set (time := h * 3600000000 + mi * 60000000 + s * 1000000 + us).
  assert (Htime : 0 <= time < 86400000000) by (unfold time; lia).
  assert (Hsum : _ymd2ord y m d * 86400000000 + time
                 = 719163 * 86400000000) by (unfold time; lia).
  assert (Hord : _ymd2ord y m d = _ymd2ord 1970 1 1).
  { change (_ymd2ord 1970 1 1) with 719163. lia. }
  destruct (ymd2ord_epoch y m d Hy Hm Hd Hord) as (-> & -> & ->).
  change (_ymd2ord 1970 1 1) with 719163 in Hsum.
  assert (time = 0) by lia. unfold time in *.
  assert (h = 0) by lia. assert (mi = 0) by lia.
  assert (s = 0) by lia. assert (us = 0) by lia.
  subst. reflexivity.
Qed.

Lemma same_fields_eq (a b : datetime) :
  same_fields a b = true -> utcoffset a = utcoffset b -> a = b.
Proof.
  unfold same_fields. intros H Hoff.
  repeat (apply andb_prop in H; destruct H as [H ?]).
  destruct a, b; simpl in *.
  repeat match goal with
         | E : (_ =? _) = true |- _ => apply Z.eqb_eq in E
         end.
  subst. reflexivity.
Qed.

Lemma same_fields_refl (a : datetime) : same_fields a a = true.
Proof. unfold same_fields. rewrite !Z.eqb_refl. reflexivity. Qed.

(** [==] against the epoch decides equality of instants. *)
Lemma datetime_eq_epoch (t : datetime) :
  valid_datetime t ->
  datetime_eq t EPOCH = true <-> utc_micros t = utc_micros EPOCH.
Proof.
  intros Hv. unfold datetime_eq.
  destruct (utcoffset t =? utcoffset EPOCH) eqn:Hoff.
  - apply Z.eqb_eq in Hoff. split.
    + intros H. apply same_fields_eq in H; [| exact Hoff]. now rewrite H.
    + intros H. rewrite (utc_micros_epoch_fields t Hv Hoff H).
      apply same_fields_refl.
  - rewrite Z.eqb_eq. lia.
Qed.

End DatetimeFacts.

(** ** The restriction marker on access tokens *)

Module TokenFacts.
Import PyDatetime Models Scenario DatetimeFacts.

Lemma alter_setattr_expires_twice (r : nat) (h : gmap nat AccessToken) :
  alter (setattr_expires EPOCH) r (alter (setattr_expires EPOCH) r h)
  = alter (setattr_expires EPOCH) r h.
Proof.
  apply map_eq. intros i.
  destruct (decide (r = i)) as [-> | Hne].
  - rewrite !lookup_alter_eq. destruct (h !! i); reflexivity.
  - rewrite !lookup_alter_ne by exact Hne. reflexivity.
Qed.

(** C2. [verify_access_token_as_expired] answers [True] exactly for the
    tokens whose expiry is the instant 1970-01-01T00:00:00 UTC: for an
    expiry kept in UTC that is the value [EPOCH] itself, and an expiry in
    the past of any clock that is another instant gives [False]. *)
Theorem verify_access_token_as_expired_exact (t : AccessToken) :
  valid_datetime (expires t) ->
  (verify_access_token_as_expired t = true
   <-> utc_micros (expires t) = utc_micros EPOCH)
  /\ (utcoffset (expires t) = utc ->
      (verify_access_token_as_expired t = true <-> expires t = EPOCH))
  /\ (forall clock : datetime,
        utc_micros (expires t) < utc_micros clock ->
        utc_micros (expires t) <> utc_micros EPOCH ->
        verify_access_token_as_expired t = false).
Proof.
  intros Hv. unfold verify_access_token_as_expired.
  pose proof (datetime_eq_epoch (expires t) Hv) as Hiff.
  split; [exact Hiff |]. split.
  - intros Hutc. rewrite Hiff. split.
    + apply utc_micros_epoch_fields; assumption.
    + intros ->. reflexivity.
  - intros clock _ Hne.
    destruct (datetime_eq (expires t) EPOCH) eqn:E; [| reflexivity].
    exfalso. apply Hne, Hiff. reflexivity.
Qed.

Lemma expiry_2018_valid : valid_datetime expiry_2018.
Proof.
  unfold valid_datetime. vm_compute.
  repeat split; (reflexivity || discriminate).
Qed.

(** The theorem at a token that expired in 2018, read in 2019. *)
Lemma verify_access_token_as_expired_exact_witness :
  valid_datetime (expires live_token)
  /\ utc_micros (expires live_token) < utc_micros clock_2019
  /\ utc_micros (expires live_token) <> utc_micros EPOCH
  /\ verify_access_token_as_expired live_token = false.
Proof.
  split; [exact expiry_2018_valid |].
  split; [reflexivity |].
  split; [discriminate |].
  destruct (verify_access_token_as_expired_exact live_token
              expiry_2018_valid) as (_ & _ & Hpast).
  apply (Hpast clock_2019); [reflexivity | discriminate].
Defined.

(** C8. [set_access_token_as_expired] is idempotent, and what it does to
    the token does not depend on the clock, which it leaves alone; the
    token it was applied to carries the sentinel afterwards. *)
Theorem set_access_token_as_expired_idempotent
  (access_token : nat) (s : pystate) :
  set_access_token_as_expired access_token
    (set_access_token_as_expired access_token s)
  = set_access_token_as_expired access_token s
  /\ (forall clock clock' : datetime,
        heap (set_access_token_as_expired access_token
                (mk_pystate (heap s) clock))
        = heap (set_access_token_as_expired access_token
                  (mk_pystate (heap s) clock')))
  /\ now (set_access_token_as_expired access_token s) = now s
  /\ heap (set_access_token_as_expired access_token s) !! access_token
     = setattr_expires EPOCH <$> heap s !! access_token.
Proof.
  unfold set_access_token_as_expired; simpl.
  split; [| split; [| split]].
  - f_equal. apply alter_setattr_expires_twice.
  - reflexivity.
  - reflexivity.
  - apply lookup_alter_eq.
Qed.

End TokenFacts.

(** ** Authorization filters *)

Module FilterFacts.
Import Models Scenario.

Lemma valid_provider_type_content (p : string) :
  valid_provider_type p -> p = CONTENT_PROVIDER_TYPE.
Proof.
  unfold valid_provider_type; simpl. intros [H | []]. symmetry; exact H.
Qed.

Lemma join_colon (a b : string) : join ":" [a; b] = a +:+ ":" +:+ b.
Proof. reflexivity. Qed.

(** C5. Every organization contributes one tag, made of its provider
    type, a colon and its short name, in the order of the organizations,
    and [user:me] follows exactly when the grant type is
    client-credentials.  An application whose one organization has the
    provider type [content-provider] and the short name [org1] has the
    filters [content-provider:org1] and [user:me] with the
    client-credentials grant type, and [content-provider:org1] alone with
    the authorization-code grant type.  (With the provider type that the
    model field admits, [CONTENT_PROVIDER_TYPE], the tag reads
    [content_org:org1].) *)
Theorem authorization_filters_tags (app : Application) :
  authorization_filters app
  = (map (fun org => provider_type org +:+ ":" +:+ short_name org)
         (organizations app)
     ++ (if decide (authorization_grant_type app = GRANT_CLIENT_CREDENTIALS)
         then [FILTER_USER_ME] else []))%list
  /\ length (authorization_filters app)
     = (length (organizations app)
        + (if decide (authorization_grant_type app
                      = GRANT_CLIENT_CREDENTIALS)
           then 1 else 0))%nat
  /\ (forall i c n skip declared,
        authorization_filters
          (mk_application i c n GRANT_CLIENT_CREDENTIALS skip declared
             [mk_organization "org1" "content-provider"])
        = ["content-provider:org1"; "user:me"]
        /\ authorization_filters
             (mk_application i c n GRANT_AUTHORIZATION_CODE skip declared
                [mk_organization "org1" "content-provider"])
           = ["content-provider:org1"])
  /\ (forall i c n skip declared,
        authorization_filters
          (mk_application i c n GRANT_CLIENT_CREDENTIALS skip declared
             [mk_organization "org1" CONTENT_PROVIDER_TYPE])
        = ["content_org:org1"; "user:me"]
        /\ authorization_filters
             (mk_application i c n GRANT_AUTHORIZATION_CODE skip declared
                [mk_organization "org1" CONTENT_PROVIDER_TYPE])
           = ["content_org:org1"]).
Proof.
  assert (Hformula :
    authorization_filters app
    = (map (fun org => provider_type org +:+ ":" +:+ short_name org)
           (organizations app)
       ++ (if decide (authorization_grant_type app
                      = GRANT_CLIENT_CREDENTIALS)
           then [FILTER_USER_ME] else []))%list).
  { unfold authorization_filters.
    destruct (String.eqb_spec (authorization_grant_type app)
                GRANT_CLIENT_CREDENTIALS) as [Heq | Hne].
    - rewrite decide_True by exact Heq. reflexivity.
    - rewrite decide_False by exact Hne. rewrite app_nil_r. reflexivity. }
  split; [exact Hformula |]. split.
  - rewrite Hformula, length_app, length_map.
    destruct (decide (authorization_grant_type app
                      = GRANT_CLIENT_CREDENTIALS)); reflexivity.
  - split; intros; split; reflexivity.
Qed.

End FilterFacts.

(** ** The scopes backend *)

Module ScopeFacts.
Import Models Scopes Scenario.

(** With the arguments of [hasattr] in the order object, name, the
    backend returns the intersection of the declared scopes with the keys
    of the registry, and the keys of the registry without a declared
    list. *)
Lemma availableScopes_spec_intersection
  (SCOPES : gmap string string) (str_attribute : string -> bool)
  (a : Application) :
  availableScopes_spec SCOPES str_attribute (PyApplication a)
  = match scopes a with
    | Some declared => Ok (list_to_set declared ∩ dom SCOPES)
    | None => Ok (dom SCOPES)
    end.
Proof.
  unfold availableScopes_spec; simpl. unfold application_attribute; simpl.
  destruct (scopes a) as [declared |] eqn:E.
  - rewrite bool_decide_eq_true_2 by eauto. reflexivity.
  - rewrite bool_decide_eq_false_2 by (intros [? ?]; discriminate).
    reflexivity.
Qed.

(** C1. The code calls [hasattr('scopes', application)]: the application
    is passed as the attribute name, so for every application instance and
    for [None] the call raises [TypeError] and neither the intersection
    nor the registry's keys are returned.  For the application that
    declares [read], [write] and [bogus] the claim gives [read] and
    [write]. *)
Theorem get_available_scopes_raises :
  (forall (SCOPES : gmap string string) (str_attribute : string -> bool),
     (forall a : Application,
        get_available_scopes SCOPES str_attribute (PyApplication a)
        = Raise TypeError)
     /\ get_available_scopes SCOPES str_attribute PyNone = Raise TypeError)
  /\ get_available_scopes registry no_str_attribute
       (PyApplication app_client_credentials) = Raise TypeError
  /\ availableScopes_spec registry no_str_attribute
       (PyApplication app_client_credentials)
     = Ok (list_to_set ["read"; "write"; "bogus"] ∩ dom registry)
  /\ "read" ∈ (list_to_set ["read"; "write"; "bogus"] ∩ dom registry
               : gset string).
Proof.
  split; [| split; [| split]].
  - intros SCOPES str_attribute. split; reflexivity.
  - reflexivity.
  - apply availableScopes_spec_intersection.
  - apply elem_of_intersection. split.
    + set_solver.
    + apply elem_of_dom. exists "Read access". reflexivity.
Qed.

End ScopeFacts.

(** ** The authorization view *)

Module ViewFacts.
Import PyDatetime Models Views.

Section Facts.
Context `{TK : Toolkit}.

(** *** The computations, step by step *)

Lemma after_nil {A} (x : result A * world * list event) : after [] x = x.
Proof. destruct x as [[r w] l]. reflexivity. Qed.

Lemma after_after {A} (l1 l2 : list event)
  (x : result A * world * list event) :
  after l1 (after l2 x) = after (l1 ++ l2) x.
Proof. destruct x as [[r w] l]. simpl. now rewrite app_assoc. Qed.

Lemma bind_ok {A B} (m : M A) (k : A -> M B) (w w1 : world) (a : A)
  (l1 : list event) :
  m w = (Ok a, w1, l1) -> bind m k w = after l1 (k a w1).
Proof. intros H. unfold bind. now rewrite H. Qed.

Lemma bind_raise {A B} (m : M A) (k : A -> M B) (w w1 : world) (e : exn)
  (l1 : list event) :
  m w = (Raise e, w1, l1) -> bind m k w = (Raise e, w1, l1).
Proof. intros H. unfold bind. now rewrite H. Qed.

Lemma of_result_ok {A B} (a : A) (r : result A) (k : A -> M B)
  (w : world) :
  r = Ok a -> bind (of_result r) k w = k a w.
Proof.
  intros ->. rewrite (bind_ok _ _ w w a []) by reflexivity.
  apply after_nil.
Qed.

Lemma of_result_raise {A B} (e : exn) (r : result A) (k : A -> M B)
  (w : world) :
  r = Raise e -> bind (of_result r) k w = (Raise e, w, []).
Proof. intros ->. reflexivity. Qed.

Lemma emit_then {B} (ev : event) (k : M B) (w : world) :
  bind (emit ev) (fun _ => k) w = after [ev] (k w).
Proof. reflexivity. Qed.

Lemma getitem_ok {V} (d : gmap string V) (key : string) (v : V) :
  d !! key = Some v -> getitem d key = Ok v.
Proof. intros H. unfold getitem. now rewrite H. Qed.

Lemma allow_scopes_covers (t : AccessToken) (scopes : list string) :
  allow_scopes t scopes = true <-> covers t scopes.
Proof.
  unfold allow_scopes, covers. rewrite forallb_forall. split.
  - intros H s Hs. apply list_elem_of_In in Hs.
    specialize (H s Hs). apply existsb_exists in H as (x & Hx & Heq).
    apply String.eqb_eq in Heq. subst x. apply list_elem_of_In, Hx.
  - intros H s Hs. apply existsb_exists. exists s. split.
    + apply list_elem_of_In, H, list_elem_of_In, Hs.
    + apply String.eqb_refl.
Qed.

Lemma getitem_application_stored (kwargs : gmap string kwval)
  (v : validation) :
  getitem_application (consent_kwargs kwargs v) = Ok (v_application v).
Proof.
  unfold getitem_application, getitem, consent_kwargs, oauth2_data_of.
  rewrite !lookup_insert_ne by discriminate.
  rewrite lookup_insert_eq. reflexivity.
Qed.

Lemma get_body_validated (request : request) (kwargs : gmap string kwval)
  (w : world) (v : validation) :
  require_approval request = "auto_even_if_expired" ->
  passes_validation request w v ->
  get_body request kwargs w
  = (emit EvValidate ;;;
     if skip_authorization (v_application v) then
       grant request (v_scopes v) (v_credentials v)
     else
       tokens <- accesstoken_set_filter (request_user request)
                   (v_application v) ;;
       returned <- for_token_in tokens request (v_scopes v)
                     (v_credentials v) ;;
       match returned with
       | Some r => ret r
       | None => render_to_response (consent_kwargs kwargs v)
       end) w.
Proof.
  intros Hmode (Hval & Hdesc & Hcid & Huri & Hrtype & Hstate & Happ).
  unfold get_body. rewrite Hmode.
  change (negb ("auto_even_if_expired" =? "auto_even_if_expired")%string)
    with false. cbv iota.
  rewrite emit_then.
  rewrite (bind_ok (call_validate request) _ w w
             (v_scopes v, v_credentials v) [EvValidate])
    by (unfold call_validate; now rewrite Hval).
  f_equal. cbv beta iota.
  rewrite (of_result_ok (v_descriptions v)) by exact Hdesc.
  rewrite (of_result_ok (v_client_id v)) by (apply getitem_ok, Hcid).
  rewrite (bind_ok (objects_get (v_client_id v)) _ w w
             (v_application v) [])
    by (unfold objects_get; now rewrite Happ).
  rewrite after_nil.
  rewrite (of_result_ok (v_client_id v)) by (apply getitem_ok, Hcid).
  rewrite (of_result_ok (v_redirect_uri v)) by (apply getitem_ok, Huri).
  rewrite (of_result_ok (v_response_type v))
    by (apply getitem_ok, Hrtype).
  rewrite (of_result_ok (v_state v)) by (apply getitem_ok, Hstate).
  cbv zeta.
  fold (oauth2_data_of kwargs v). fold (consent_kwargs kwargs v).
  destruct (skip_authorization (v_application v)); [reflexivity |].
  rewrite String.eqb_refl. unfold py_assert.
  rewrite (bind_ok (ret tt) _ w w tt []) by reflexivity.
  rewrite after_nil.
  rewrite (of_result_ok (v_application v))
    by apply getitem_application_stored.
  reflexivity.
Qed.

(** *** Issuance, the loop and the handler of protocol errors *)

Lemma grant_returned (request : request) (scopes : list string)
  (credentials : gmap string string) (w w1 : world) (uri body : string)
  (headers : gmap string string) (status : Z) :
  create_authorization_response request (join " " scopes) credentials
    true w = (Returned (uri, headers, body, status), w1) ->
  grant request scopes credentials w
  = (Ok (HttpResponseUriRedirect uri), w1,
     [EvIssue (join " " scopes) credentials true true]).
Proof.
  intros H. unfold grant, bind, call_create. rewrite H. reflexivity.
Qed.

Lemma grant_refused (request : request) (scopes : list string)
  (credentials : gmap string string) (w w1 : world) (error : string) :
  create_authorization_response request (join " " scopes) credentials
    true w = (ProtocolError error, w1) ->
  grant request scopes credentials w
  = (Raise (OAuthToolkitError error), w1,
     [EvIssue (join " " scopes) credentials true false]).
Proof.
  intros H. unfold grant, bind, call_create. rewrite H. reflexivity.
Qed.

(** The loop runs out when no token allows the scopes. *)
Lemma for_token_in_miss (tokens : list AccessToken) (request : request)
  (scopes : list string) (credentials : gmap string string) (w : world) :
  Forall (fun t => ~ covers t scopes) tokens ->
  for_token_in tokens request scopes credentials w = (Ok None, w, []).
Proof.
  induction 1 as [| t rest Ht _ IH]; [reflexivity |].
  simpl. destruct (allow_scopes t scopes) eqn:E; [| exact IH].
  exfalso. apply Ht, allow_scopes_covers, E.
Qed.

(** The loop issues the response at the first token that allows the
    scopes. *)
Lemma for_token_in_hit (tokens : list AccessToken) (request : request)
  (scopes : list string) (credentials : gmap string string) (w : world) :
  Exists (fun t => covers t scopes) tokens ->
  for_token_in tokens request scopes credentials w
  = (r <- grant request scopes credentials ;; ret (Some r)) w.
Proof.
  induction tokens as [| t rest IH]; intros Hex.
  - inversion Hex.
  - simpl. destruct (allow_scopes t scopes) eqn:E.
    + unfold grant, bind, call_create.
      destruct (create_authorization_response request (join " " scopes)
                  credentials true w)
        as [[[[[uri headers] body] status] | e] w1]; reflexivity.
    + apply IH. inversion Hex as [? ? Hc | ? ? Hc]; subst; [| exact Hc].
      apply allow_scopes_covers in Hc. congruence.
Qed.

Lemma covers_dec (t : AccessToken) (scopes : list string) :
  {covers t scopes} + {~ covers t scopes}.
Proof.
  destruct (allow_scopes t scopes) eqn:E.
  - left. apply allow_scopes_covers, E.
  - right. intros H. apply allow_scopes_covers in H. congruence.
Qed.

Lemma covers_Exists_or_Forall (tokens : list AccessToken)
  (scopes : list string) :
  Exists (fun t => covers t scopes) tokens
  \/ Forall (fun t => ~ covers t scopes) tokens.
Proof.
  induction tokens as [| t rest [IH | IH]].
  - right. constructor.
  - left. now constructor 2.
  - destruct (covers_dec t scopes) as [Hc | Hc].
    + left. now constructor 1.
    + right. now constructor.
Qed.

Lemma get_ok (request : request) (kwargs : gmap string kwval)
  (w w1 : world) (r : response) (l : list event) :
  get_body request kwargs w = (Ok r, w1, l) ->
  get request kwargs w = (Ok r, w1, l).
Proof.
  intros H. unfold get, try_except_OAuthToolkitError. now rewrite H.
Qed.

Lemma get_protocol_error (request : request) (kwargs : gmap string kwval)
  (w w1 : world) (error : string) (l : list event) :
  get_body request kwargs w = (Raise (OAuthToolkitError error), w1, l) ->
  get request kwargs w
  = (Ok (ErrorResponse error), w1, l ++ [EvErrorResponse error]).
Proof.
  intros H. unfold get, try_except_OAuthToolkitError. now rewrite H.
Qed.

Lemma get_lookup_failure (request : request) (kwargs : gmap string kwval)
  (w w1 : world) (e : exn) (l : list event) :
  is_lookup_failure e ->
  get_body request kwargs w = (Raise e, w1, l) ->
  get request kwargs w = (Raise e, w1, l).
Proof.
  intros He H. unfold get, try_except_OAuthToolkitError. rewrite H.
  destruct e; simpl in He; tauto.
Qed.

Lemma getitems_raise {V} (d : gmap string V) (keys : list string)
  (e : exn) :
  getitems d keys = Raise e -> is_lookup_failure e.
Proof.
  induction keys as [| key rest IH]; simpl; [discriminate |].
  unfold getitem. destruct (d !! key).
  - destruct (getitems d rest); [discriminate |].
    intros [= ->]. now apply IH.
  - intros [= <-]. exact I.
Qed.

Lemma getitem_inv {V} (d : gmap string V) (key : string) (v : V) :
  getitem d key = Ok v -> d !! key = Some v.
Proof. unfold getitem. destruct (d !! key); congruence. Qed.

Lemma getitem_raise {V} (d : gmap string V) (key : string) (e : exn) :
  getitem d key = Raise e -> is_lookup_failure e.
Proof.
  unfold getitem. destruct (d !! key); [discriminate |].
  intros [= <-]. exact I.
Qed.

(** *** The three ways a validated request is decided *)

Lemma get_skip (request : request) (kwargs : gmap string kwval)
  (w : world) (v : validation) :
  require_approval request = "auto_even_if_expired" ->
  passes_validation request w v ->
  skip_authorization (v_application v) = true ->
  get request kwargs w
  = match create_authorization_response request
            (join " " (v_scopes v)) (v_credentials v) true w with
    | (Returned (uri, _, _, _), w1) =>
        (Ok (HttpResponseUriRedirect uri), w1,
         [EvValidate;
          EvIssue (join " " (v_scopes v)) (v_credentials v) true true])
    | (ProtocolError error, w1) =>
        (Ok (ErrorResponse error), w1,
         [EvValidate;
          EvIssue (join " " (v_scopes v)) (v_credentials v) true false;
          EvErrorResponse error])
    end.
Proof.
  intros Hmode Hv Hskip.
  pose proof (get_body_validated request kwargs w v Hmode Hv) as Hbody.
  rewrite emit_then, Hskip in Hbody.
  destruct (create_authorization_response request
              (join " " (v_scopes v)) (v_credentials v) true w)
    as [[[[[uri headers] body] status] | error] w1] eqn:Hcreate.
  - rewrite (grant_returned _ _ _ _ _ _ _ _ _ Hcreate) in Hbody.
    apply get_ok. exact Hbody.
  - rewrite (grant_refused _ _ _ _ _ _ Hcreate) in Hbody.
    apply (get_protocol_error _ _ _ _ _ _ Hbody).
Qed.

Lemma get_hit (request : request) (kwargs : gmap string kwval)
  (w : world) (v : validation) :
  require_approval request = "auto_even_if_expired" ->
  passes_validation request w v ->
  skip_authorization (v_application v) = false ->
  Exists (fun t => covers t (v_scopes v))
         (prior_tokens request (v_application v) w) ->
  get request kwargs w
  = match create_authorization_response request
            (join " " (v_scopes v)) (v_credentials v) true w with
    | (Returned (uri, _, _, _), w1) =>
        (Ok (HttpResponseUriRedirect uri), w1,
         [EvValidate;
          EvTokenScan (request_user request) (id (v_application v));
          EvIssue (join " " (v_scopes v)) (v_credentials v) true true])
    | (ProtocolError error, w1) =>
        (Ok (ErrorResponse error), w1,
         [EvValidate;
          EvTokenScan (request_user request) (id (v_application v));
          EvIssue (join " " (v_scopes v)) (v_credentials v) true false;
          EvErrorResponse error])
    end.
Proof.
  intros Hmode Hv Hskip Hex.
  pose proof (get_body_validated request kwargs w v Hmode Hv) as Hbody.
  rewrite emit_then, Hskip in Hbody.
  rewrite (bind_ok (accesstoken_set_filter _ _) _ w w
             (prior_tokens request (v_application v) w)
             [EvTokenScan (request_user request)
                (id (v_application v))])
    in Hbody by reflexivity.
  pose proof (for_token_in_hit _ request _ (v_credentials v) w Hex)
    as Hloop.
  destruct (create_authorization_response request
              (join " " (v_scopes v)) (v_credentials v) true w)
    as [[[[[uri headers] body] status] | error] w1] eqn:Hcreate.
  - rewrite (bind_ok (grant _ _ _) _ w w1 _ _
               (grant_returned _ _ _ _ _ _ _ _ _ Hcreate)) in Hloop.
    rewrite (bind_ok (for_token_in _ _ _ _) _ w w1 _ _ Hloop) in Hbody.
    apply get_ok. exact Hbody.
  - rewrite (bind_raise (grant _ _ _) _ w w1 _ _
               (grant_refused _ _ _ _ _ _ Hcreate)) in Hloop.
    rewrite (bind_raise (for_token_in _ _ _ _) _ w w1 _ _ Hloop)
      in Hbody.
    apply (get_protocol_error _ _ _ _ _ _ Hbody).
Qed.

Lemma get_miss (request : request) (kwargs : gmap string kwval)
  (w : world) (v : validation) :
  require_approval request = "auto_even_if_expired" ->
  passes_validation request w v ->
  skip_authorization (v_application v) = false ->
  Forall (fun t => ~ covers t (v_scopes v))
         (prior_tokens request (v_application v) w) ->
  get request kwargs w
  = (Ok (TemplateResponse (consent_kwargs kwargs v)), w,
     [EvValidate;
      EvTokenScan (request_user request) (id (v_application v));
      EvRender]).
Proof.
  intros Hmode Hv Hskip Hall.
  pose proof (get_body_validated request kwargs w v Hmode Hv) as Hbody.
  rewrite emit_then, Hskip in Hbody.
  rewrite (bind_ok (accesstoken_set_filter _ _) _ w w
             (prior_tokens request (v_application v) w)
             [EvTokenScan (request_user request)
                (id (v_application v))])
    in Hbody by reflexivity.
  rewrite (bind_ok (for_token_in _ _ _ _) _ w w _ _
             (for_token_in_miss _ request _ (v_credentials v) w Hall))
    in Hbody.
  apply get_ok. exact Hbody.
Qed.

(** *** Every way a GET in mode [auto_even_if_expired] ends *)

Lemma validation_cases (request : request) (kwargs : gmap string kwval)
  (w : world) :
  require_approval request = "auto_even_if_expired" ->
  (exists error,
      validate_authorization_request request w = ProtocolError error
      /\ get_body request kwargs w
         = (Raise (OAuthToolkitError error), w, [EvValidate]))
  \/ (exists e scopes credentials,
         validate_authorization_request request w
         = Returned (scopes, credentials)
         /\ is_lookup_failure e
         /\ get_body request kwargs w = (Raise e, w, [EvValidate]))
  \/ (exists v, passes_validation request w v).
Proof.
  intros Hmode. unfold get_body. rewrite Hmode.
  change (negb ("auto_even_if_expired" =? "auto_even_if_expired")%string)
    with false. cbv iota.
  destruct (validate_authorization_request request w)
    as [[scopes credentials] | error] eqn:Hval.
  2: { left. exists error. split; [reflexivity |].
       apply bind_raise. unfold call_validate. now rewrite Hval. }
  right.
  rewrite (bind_ok (call_validate request) _ w w
             (scopes, credentials) [EvValidate])
    by (unfold call_validate; now rewrite Hval).
  cbv beta iota.
  destruct (getitems all_scopes scopes) as [descriptions | e] eqn:Hdesc.
  2: { left. exists e, scopes, credentials.
       split; [reflexivity |]. split; [eapply getitems_raise, Hdesc |].
       now rewrite (of_result_raise e). }
  rewrite (of_result_ok descriptions) by reflexivity.
  destruct (getitem credentials "client_id") as [cid | e] eqn:Hcid.
  2: { left. exists e, scopes, credentials.
       split; [reflexivity |]. split; [eapply getitem_raise, Hcid |].
       now rewrite (of_result_raise e). }
  rewrite (of_result_ok cid) by reflexivity.
  destruct (filter (fun a => client_id a = cid) (applications w))
    as [| application [| other rest]] eqn:Happ.
  1: { left. exists DoesNotExist, scopes, credentials.
       split; [reflexivity |]. split; [exact I |].
       rewrite (bind_raise (objects_get cid) _ w w DoesNotExist [])
         by (unfold objects_get; now rewrite Happ).
       reflexivity. }
  2: { left. exists MultipleObjectsReturned, scopes, credentials.
       split; [reflexivity |]. split; [exact I |].
       rewrite (bind_raise (objects_get cid) _ w w
                  MultipleObjectsReturned [])
         by (unfold objects_get; now rewrite Happ).
       reflexivity. }
  rewrite (bind_ok (objects_get cid) _ w w application [])
    by (unfold objects_get; now rewrite Happ).
  rewrite after_nil, (of_result_ok cid) by reflexivity.
  destruct (getitem credentials "redirect_uri") as [uri | e] eqn:Huri.
  2: { left. exists e, scopes, credentials.
       split; [reflexivity |]. split; [eapply getitem_raise, Huri |].
       now rewrite (of_result_raise e). }
  rewrite (of_result_ok uri) by reflexivity.
  destruct (getitem credentials "response_type") as [rtype | e]
    eqn:Hrtype.
  2: { left. exists e, scopes, credentials.
       split; [reflexivity |]. split; [eapply getitem_raise, Hrtype |].
       now rewrite (of_result_raise e). }
  rewrite (of_result_ok rtype) by reflexivity.
  destruct (getitem credentials "state") as [state | e] eqn:Hstate.
  2: { left. exists e, scopes, credentials.
       split; [reflexivity |]. split; [eapply getitem_raise, Hstate |].
       now rewrite (of_result_raise e). }
  right.
  exists (mk_validation scopes credentials descriptions cid uri rtype
            state application).
  unfold passes_validation; simpl.
  repeat split; auto using getitem_inv.
Qed.

Lemma get_auto_outcome (request : request) (kwargs : gmap string kwval)
  (w : world) :
  require_approval request = "auto_even_if_expired" ->
  auto_outcome request kwargs w (get request kwargs w).
Proof.
  intros Hmode.
  destruct (validation_cases request kwargs w Hmode)
    as [(error & Hval & Hbody)
       | [(e & scopes & credentials & Hval & He & Hbody) | (v & Hv)]].
  - rewrite (get_protocol_error _ _ _ _ _ _ Hbody).
    apply out_invalid, Hval.
  - rewrite (get_lookup_failure _ _ _ _ _ _ He Hbody).
    apply (out_lookup_failed _ _ _ e scopes credentials Hval He).
  - destruct (skip_authorization (v_application v)) eqn:Hskip.
    + rewrite (get_skip request kwargs w v Hmode Hv Hskip).
      destruct (create_authorization_response request
                  (join " " (v_scopes v)) (v_credentials v) true w)
        as [[[[[uri headers] body] status] | error] w1] eqn:Hcreate.
      * apply (out_granted request kwargs w v [] uri body headers
                 status w1 Hv); [now rewrite Hskip | exact Hcreate].
      * apply (out_refused request kwargs w v [] error w1 Hv);
          [now rewrite Hskip | exact Hcreate].
    + destruct (covers_Exists_or_Forall
                  (prior_tokens request (v_application v) w)
                  (v_scopes v)) as [Hex | Hall].
      * rewrite (get_hit request kwargs w v Hmode Hv Hskip Hex).
        destruct (create_authorization_response request
                    (join " " (v_scopes v)) (v_credentials v) true w)
          as [[[[[uri headers] body] status] | error] w1] eqn:Hcreate.
        -- apply (out_granted request kwargs w v
                    [EvTokenScan (request_user request)
                       (id (v_application v))]
                    uri body headers status w1 Hv);
             [rewrite Hskip; now split | exact Hcreate].
        -- apply (out_refused request kwargs w v
                    [EvTokenScan (request_user request)
                       (id (v_application v))]
                    error w1 Hv);
             [rewrite Hskip; now split | exact Hcreate].
      * rewrite (get_miss request kwargs w v Hmode Hv Hskip Hall).
        apply out_prompt; assumption.
Qed.

(** In every other mode the handler of the base class answers. *)
Lemma get_passthrough (request : request) (kwargs : gmap string kwval)
  (w : world) :
  require_approval request <> "auto_even_if_expired" ->
  get request kwargs w = super_get request kwargs w.
Proof.
  intros Hmode.
  unfold get, try_except_OAuthToolkitError, get_body.
  destruct (String.eqb_spec (require_approval request)
              "auto_even_if_expired") as [Heq | _]; [contradiction |].
  change (negb false) with true. cbv iota. unfold super_get.
  destruct (base_get request kwargs w) as [[r w1] calls]. reflexivity.
Qed.

Lemma prior_tokens_elem (request : request) (a : Application)
  (w : world) (token : AccessToken) :
  token ∈ prior_tokens request a w
  <-> (token_user token = request_user request
       /\ token_application token = id a)
      /\ token ∈ access_tokens w.
Proof. unfold prior_tokens. now rewrite list_elem_of_filter. Qed.

Lemma require_approval_default (request : request) :
  GET request !! "approval_prompt" = None ->
  require_approval request = REQUEST_APPROVAL_PROMPT.
Proof. intros H. unfold require_approval. now rewrite H. Qed.

(** *** The properties of the specification *)

(** C3. In mode [auto_even_if_expired], for an application without
    [skip_authorization], when some token issued earlier to the user for
    the application records a superset of the requested scopes, the view
    calls [create_authorization_response] with [allow=True] and
    redirects to the URI it returns, without rendering the consent form
    (should issuance raise a protocol error, the error response is
    returned instead).  Nothing is asked of the expiry of the token: it
    is among the scanned tokens whatever [expires] holds, the epoch
    sentinel included. *)
Theorem prior_grant_is_reused (request : request)
  (kwargs : gmap string kwval) (w : world) (v : validation)
  (token : AccessToken) :
  require_approval request = "auto_even_if_expired" ->
  passes_validation request w v ->
  skip_authorization (v_application v) = false ->
  token ∈ access_tokens w ->
  token_user token = request_user request ->
  token_application token = id (v_application v) ->
  covers token (v_scopes v) ->
  match create_authorization_response request
          (join " " (v_scopes v)) (v_credentials v) true w with
  | (Returned (uri, _, _, _), w1) =>
      get request kwargs w
      = (Ok (HttpResponseUriRedirect uri), w1,
         [EvValidate;
          EvTokenScan (request_user request) (id (v_application v));
          EvIssue (join " " (v_scopes v)) (v_credentials v) true true])
  | (ProtocolError error, w1) =>
      get request kwargs w
      = (Ok (ErrorResponse error), w1,
         [EvValidate;
          EvTokenScan (request_user request) (id (v_application v));
          EvIssue (join " " (v_scopes v)) (v_credentials v) true false;
          EvErrorResponse error])
  end
  /\ calls is_render (get request kwargs w).2 = 0%nat
  /\ calls is_issue_call (get request kwargs w).2 = 1%nat
  /\ token ∈ prior_tokens request (v_application v) w.
Proof.
  intros Hmode Hv Hskip Hin Huser Happ Hcovers.
  assert (Hprior : token ∈ prior_tokens request (v_application v) w)
    by (apply prior_tokens_elem; auto).
  assert (Hex : Exists (fun t => covers t (v_scopes v))
                       (prior_tokens request (v_application v) w))
    by (apply Exists_exists; eauto).
  pose proof (get_hit request kwargs w v Hmode Hv Hskip Hex) as Hget.
  destruct (create_authorization_response request
              (join " " (v_scopes v)) (v_credentials v) true w)
    as [[[[[uri headers] body] status] | error] w1];
    rewrite Hget; repeat split; assumption.
Qed.

(** C4. In mode [auto_even_if_expired], for an application with
    [skip_authorization], every request that passes validation is
    answered by [create_authorization_response] with [allow=True] and
    the redirect (or the error response, should issuance raise), in any
    store: the tokens of the user are not looked up and the consent
    form is not rendered. *)
Theorem skip_authorization_bypasses_history (request : request)
  (kwargs : gmap string kwval) (w : world) (v : validation) :
  require_approval request = "auto_even_if_expired" ->
  passes_validation request w v ->
  skip_authorization (v_application v) = true ->
  match create_authorization_response request
          (join " " (v_scopes v)) (v_credentials v) true w with
  | (Returned (uri, _, _, _), w1) =>
      get request kwargs w
      = (Ok (HttpResponseUriRedirect uri), w1,
         [EvValidate;
          EvIssue (join " " (v_scopes v)) (v_credentials v) true true])
  | (ProtocolError error, w1) =>
      get request kwargs w
      = (Ok (ErrorResponse error), w1,
         [EvValidate;
          EvIssue (join " " (v_scopes v)) (v_credentials v) true false;
          EvErrorResponse error])
  end
  /\ calls is_token_scan (get request kwargs w).2 = 0%nat
  /\ calls is_render (get request kwargs w).2 = 0%nat
  /\ calls is_issue_call (get request kwargs w).2 = 1%nat.
Proof.
  intros Hmode Hv Hskip.
  pose proof (get_skip request kwargs w v Hmode Hv Hskip) as Hget.
  destruct (create_authorization_response request
              (join " " (v_scopes v)) (v_credentials v) true w)
    as [[[[[uri headers] body] status] | error] w1];
    rewrite Hget; repeat split.
Qed.

(** C7. In mode [auto_even_if_expired], for an application without
    [skip_authorization], when no token issued earlier to the user for
    the application records a superset of the requested scopes, the view
    renders the consent form from the keyword arguments that hold the
    validated scopes, their descriptions, the application and the
    credentials; issuance is not called and the store is as it was. *)
Theorem uncovered_scopes_prompt (request : request)
  (kwargs : gmap string kwval) (w : world) (v : validation) :
  require_approval request = "auto_even_if_expired" ->
  passes_validation request w v ->
  skip_authorization (v_application v) = false ->
  (forall token : AccessToken,
      token ∈ access_tokens w ->
      token_user token = request_user request ->
      token_application token = id (v_application v) ->
      ~ covers token (v_scopes v)) ->
  get request kwargs w
  = (Ok (TemplateResponse (consent_kwargs kwargs v)), w,
     [EvValidate;
      EvTokenScan (request_user request) (id (v_application v));
      EvRender])
  /\ consent_kwargs kwargs v !! "scopes" = Some (KwList (v_scopes v))
  /\ consent_kwargs kwargs v !! "scopes_descriptions"
     = Some (KwList (v_descriptions v))
  /\ consent_kwargs kwargs v !! "application"
     = Some (KwApplication (v_application v))
  /\ consent_kwargs kwargs v !! "client_id" = Some (KwStr (v_client_id v))
  /\ consent_kwargs kwargs v !! "redirect_uri"
     = Some (KwStr (v_redirect_uri v))
  /\ consent_kwargs kwargs v !! "response_type"
     = Some (KwStr (v_response_type v))
  /\ consent_kwargs kwargs v !! "state" = Some (KwStr (v_state v))
  /\ calls is_issue_call (get request kwargs w).2 = 0%nat.
Proof.
  intros Hmode Hv Hskip Hnone.
  assert (Hall : Forall (fun t => ~ covers t (v_scopes v))
                        (prior_tokens request (v_application v) w)).
  { apply Forall_forall. intros t Ht.
    apply prior_tokens_elem in Ht as [[Hu Ha] Hin]. now apply Hnone. }
  rewrite (get_miss request kwargs w v Hmode Hv Hskip Hall).
  unfold consent_kwargs, oauth2_data_of.
  repeat split;
    (rewrite !lookup_insert_ne by discriminate;
     now rewrite lookup_insert_eq).
Qed.

(** C6. For every request whose [approval_prompt] parameter is given
    and is not [auto_even_if_expired], and for every request without the
    parameter when the configured [REQUEST_APPROVAL_PROMPT] is not
    [auto_even_if_expired], the view returns what the handler of the base
    class returns, leaves the store as that handler leaves it and makes
    the calls that handler makes and no other: no scan of the user's
    tokens, no validation, issuance or rendering of its own, whatever
    tokens the store holds and whether or not the application skips
    authorization. *)
Theorem other_prompts_delegate (request : request)
  (kwargs : gmap string kwval) (w : world) :
  match GET request !! "approval_prompt" with
  | Some prompt => prompt <> "auto_even_if_expired"
  | None => REQUEST_APPROVAL_PROMPT <> "auto_even_if_expired"
  end ->
  get request kwargs w
  = (Ok (base_get request kwargs w).1.1,
     (base_get request kwargs w).1.2,
     map EvBase (base_get request kwargs w).2)
  /\ Forall (fun ev => is_base_call ev = true) (get request kwargs w).2
  /\ calls is_token_scan (get request kwargs w).2 = 0%nat
  /\ calls is_validate_call (get request kwargs w).2 = 0%nat
  /\ calls is_issue_call (get request kwargs w).2 = 0%nat
  /\ calls is_render (get request kwargs w).2 = 0%nat.
Proof.
  intros Hprompt.
  assert (Hmode : require_approval request <> "auto_even_if_expired").
  { unfold require_approval.
    destruct (GET request !! "approval_prompt"); exact Hprompt. }
  rewrite (get_passthrough request kwargs w Hmode).
  unfold super_get.
  destruct (base_get request kwargs w) as [[r w1] names]. simpl.
  split; [reflexivity |]. split.
  - induction names as [| n rest IH]; simpl; constructor; auto.
  - unfold calls.
    repeat split; induction names as [| n rest IH]; simpl; auto.
Qed.

Lemma calls_base (kind : event -> bool) (names : list string) :
  (forall n, kind (EvBase n) = false) ->
  calls kind (map EvBase names) = 0%nat.
Proof.
  intros Hkind. unfold calls.
  induction names as [| n rest IH]; simpl; [reflexivity |].
  now rewrite Hkind.
Qed.



(** C10. The assertion before the scan of the prior grants holds
    whenever it is evaluated: no GET ends in [AssertionError], and a
    scan of the user's tokens only happens for the approval prompt
    [auto_even_if_expired], every other prompt having been answered by
    the base class before. *)
Theorem mode_assertion_never_fails (request : request)
  (kwargs : gmap string kwval) (w : world) :
  (get request kwargs w).1.1 <> Raise AssertionError
  /\ (require_approval request = "auto_even_if_expired"
      \/ calls is_token_scan (get request kwargs w).2 = 0%nat)
  /\ py_assert
       (String.eqb "auto_even_if_expired" "auto_even_if_expired") w
     = (Ok tt, w, []).
Proof.
  destruct (String.eqb_spec (require_approval request)
              "auto_even_if_expired") as [Hmode | Hmode].
  - split; [| split; [now left | reflexivity]].
    destruct (get_auto_outcome request kwargs w Hmode)
      as [| e ? ? _ He | | |]; simpl; try discriminate.
    intros [= ->]. exact He.
  - rewrite (get_passthrough request kwargs w Hmode). unfold super_get.
    destruct (base_get request kwargs w) as [[r w1] names]. simpl.
    split; [discriminate |]. split; [| reflexivity].
    right. now apply calls_base.
Qed.

End Facts.
End ViewFacts.

(** ** The properties at the scenarios of the specification *)

Module ScenarioFacts.
Import PyDatetime Models Views Scenario ViewFacts.

Lemma auto_read_mode :
  require_approval (TK:=toolkit) auto_read = "auto_even_if_expired".
Proof. vm_compute. reflexivity. Qed.

Lemma auto_read_write_email_mode :
  require_approval (TK:=toolkit) auto_read_write_email
  = "auto_even_if_expired".
Proof. vm_compute. reflexivity. Qed.

Lemma validated_read_passes (tokens : list AccessToken) :
  passes_validation (TK:=toolkit) auto_read
    (store app_authorization_code tokens) validated_read.
Proof. repeat split. Qed.

Lemma validated_read_write_email_passes (a : Application)
  (tokens : list AccessToken) :
  client_id a = "client1" ->
  passes_validation (TK:=toolkit) auto_read_write_email (store a tokens)
    (validated_read_write_email a).
Proof.
  intros Hcid. repeat split. simpl.
  rewrite filter_cons_True by exact Hcid. reflexivity.
Qed.

(** P4: a prior token scoped [read write], marked restricted, and a
    request for [read]. *)
Lemma prior_grant_is_reused_witness :
  verify_access_token_as_expired restricted_token = true
  /\ get (TK:=toolkit) auto_read ∅
       (store app_authorization_code [restricted_token])
     = (Ok (HttpResponseUriRedirect issued_uri),
        store app_authorization_code
              [restricted_token; mk_token 42 7 expiry_2018 "read"],
        [EvValidate; EvTokenScan 42 7;
         EvIssue "read" credentials1 true true]).
Proof.
  split; [reflexivity |].
  refine (proj1 (prior_grant_is_reused (TK:=toolkit) auto_read ∅
                   (store app_authorization_code [restricted_token])
                   validated_read restricted_token _ _ _ _ _ _ _)).
  - exact auto_read_mode.
  - apply validated_read_passes.
  - reflexivity.
  - apply list_elem_of_here.
  - reflexivity.
  - reflexivity.
  - apply allow_scopes_covers. reflexivity.
Defined.

(** P5: the same prior token and a request for [read write email]. *)
Lemma uncovered_scopes_prompt_witness :
  get (TK:=toolkit) auto_read_write_email ∅
    (store app_authorization_code [restricted_token])
  = (Ok (TemplateResponse
           (consent_kwargs (TK:=toolkit) ∅
              (validated_read_write_email app_authorization_code))),
     store app_authorization_code [restricted_token],
     [EvValidate; EvTokenScan 42 7; EvRender]).
Proof.
  refine (proj1 (uncovered_scopes_prompt (TK:=toolkit)
                   auto_read_write_email ∅
                   (store app_authorization_code [restricted_token])
                   (validated_read_write_email app_authorization_code)
                   _ _ _ _)).
  - exact auto_read_write_email_mode.
  - apply validated_read_write_email_passes. reflexivity.
  - reflexivity.
  - intros token Hin _ _ Hcovers.
    apply list_elem_of_singleton in Hin. subst token.
    apply allow_scopes_covers in Hcovers. discriminate Hcovers.
Defined.

(** P6: an in-house application, no token at all, three scopes. *)
Lemma skip_authorization_bypasses_history_witness :
  get (TK:=toolkit) auto_read_write_email ∅ (store app_in_house [])
  = (Ok (HttpResponseUriRedirect issued_uri),
     store app_in_house [mk_token 42 7 expiry_2018 "read write email"],
     [EvValidate; EvIssue "read write email" credentials1 true true]).
Proof.
  refine (proj1 (skip_authorization_bypasses_history (TK:=toolkit)
                   auto_read_write_email ∅ (store app_in_house [])
                   (validated_read_write_email app_in_house) _ _ _)).
  - exact auto_read_write_email_mode.
  - apply validated_read_write_email_passes. reflexivity.
  - reflexivity.
Defined.

(** P7: no [approval_prompt] parameter with the configured default
    [force]; and an explicit [approval_prompt=force] where the configured
    default is [auto_even_if_expired].  The store holds a token that
    covers the request, which the same deployment reuses when the
    parameter is left out. *)
Lemma other_prompts_delegate_witness :
  (GET default_read !! "approval_prompt" = None
   /\ @REQUEST_APPROVAL_PROMPT toolkit = "force"
   /\ get (TK:=toolkit) default_read ∅
        (store app_authorization_code [restricted_token])
      = (Ok (BaseResponse "consent"),
         store app_authorization_code [restricted_token],
         [EvBase "validate_authorization_request";
          EvBase "render_to_response"]))
  /\ (GET force_read !! "approval_prompt" = Some "force"
      /\ @REQUEST_APPROVAL_PROMPT auto_default_toolkit
         = "auto_even_if_expired"
      /\ get (TK:=auto_default_toolkit) force_read ∅
           (store app_authorization_code [restricted_token])
         = (Ok (BaseResponse "consent"),
            store app_authorization_code [restricted_token],
            [EvBase "validate_authorization_request";
             EvBase "render_to_response"])
      /\ get (TK:=auto_default_toolkit) default_read ∅
           (store app_authorization_code [restricted_token])
         = (Ok (HttpResponseUriRedirect issued_uri),
            store app_authorization_code
                  [restricted_token; mk_token 42 7 expiry_2018 "read"],
            [EvValidate; EvTokenScan 42 7;
             EvIssue "read" credentials1 true true])).
Proof.
  split.
  - split; [reflexivity |]. split; [reflexivity |].
    refine (proj1 (other_prompts_delegate (TK:=toolkit) default_read ∅
                     (store app_authorization_code [restricted_token]) _)).
    vm_compute. discriminate.
  - split; [reflexivity |]. split; [reflexivity |]. split.
    + refine (proj1 (other_prompts_delegate (TK:=auto_default_toolkit)
                       force_read ∅
                       (store app_authorization_code [restricted_token])
                       _)).
      vm_compute. discriminate.
    + vm_compute. reflexivity.
Defined.


End ScenarioFacts.

(** ** Further properties of models.py *)

Module TokenExtras.
Import PyDatetime Models Scenario DatetimeFacts.

Lemma setattr_expires_id (t : AccessToken) :
  expires t = EPOCH -> setattr_expires EPOCH t = t.
Proof. intros H. destruct t; simpl in *. now subst. Qed.

(** X1. Whatever instance [set_access_token_as_expired] was applied to,
    [verify_access_token_as_expired] answers [True] on it afterwards,
    under any name the instance is reached by. *)
Theorem set_then_verify (access_token : nat) (s : pystate)
  (t : AccessToken) :
  heap (set_access_token_as_expired access_token s) !! access_token = Some t ->
  verify_access_token_as_expired t = true.
Proof.
  unfold set_access_token_as_expired; simpl.
  rewrite lookup_alter_eq. destruct (heap s !! access_token) as [t0 |];
    simpl; [| discriminate].
  intros [= <-]. reflexivity.
Qed.

Lemma set_then_verify_witness :
  verify_access_token_as_expired live_token = false
  /\ heap (set_access_token_as_expired 0 two_tokens) !! 0%nat
     = Some restricted_token
  /\ verify_access_token_as_expired restricted_token = true.
Proof.
  split; [reflexivity |]. split; [reflexivity |].
  apply (set_then_verify 0 two_tokens restricted_token). reflexivity.
Defined.

(** X2. [set_access_token_as_expired] touches the expiry of the one
    instance only: every other instance is as it was, the instance keeps
    its user, application and scope, and no instance appears or
    disappears. *)
Theorem set_access_token_as_expired_frame (access_token : nat)
  (s : pystate) :
  (forall other : nat,
      other <> access_token ->
      heap (set_access_token_as_expired access_token s) !! other
      = heap s !! other)
  /\ (forall t : AccessToken,
         heap s !! access_token = Some t ->
         exists t',
           heap (set_access_token_as_expired access_token s) !! access_token
           = Some t'
           /\ token_user t' = token_user t
           /\ token_application t' = token_application t
           /\ scope t' = scope t
           /\ expires t' = EPOCH)
  /\ dom (heap (set_access_token_as_expired access_token s)) = dom (heap s).
Proof.
  unfold set_access_token_as_expired; simpl. split; [| split].
  - intros other Hne. now rewrite lookup_alter_ne.
  - intros t Ht. exists (setattr_expires EPOCH t).
    rewrite lookup_alter_eq, Ht. repeat split.
  - apply dom_alter_L.
Qed.

Lemma set_access_token_as_expired_frame_witness :
  heap (set_access_token_as_expired 0 two_tokens) !! 1%nat
  = Some (mk_token 43 7 expiry_2018 "read").
Proof.
  destruct (set_access_token_as_expired_frame 0 two_tokens) as [Hother _].
  rewrite (Hother 1%nat); [reflexivity | discriminate].
Defined.

(** X3. On an instance whose expiry, kept in UTC, is already verified as
    the sentinel, [set_access_token_as_expired] changes nothing at all. *)
Theorem set_on_verified_is_noop (access_token : nat) (s : pystate)
  (t : AccessToken) :
  heap s !! access_token = Some t ->
  valid_datetime (expires t) ->
  utcoffset (expires t) = utc ->
  verify_access_token_as_expired t = true ->
  set_access_token_as_expired access_token s = s.
Proof.
  intros Ht Hvalid Hutc Hverify.
  assert (Hepoch : expires t = EPOCH).
  { apply utc_micros_epoch_fields; [assumption | assumption |].
    apply datetime_eq_epoch; assumption. }
  unfold set_access_token_as_expired. destruct s as [h clock]; simpl in *.
  f_equal. apply map_eq. intros i.
  destruct (decide (access_token = i)) as [<- | Hne].
  - rewrite lookup_alter_eq, Ht. simpl. now rewrite setattr_expires_id.
  - now rewrite lookup_alter_ne.
Qed.

Lemma epoch_valid : valid_datetime EPOCH.
Proof.
  unfold valid_datetime. vm_compute.
  repeat split; (reflexivity || discriminate).
Qed.

Lemma set_on_verified_is_noop_witness :
  set_access_token_as_expired 0 marked_token = marked_token.
Proof.
  apply (set_on_verified_is_noop 0 marked_token restricted_token).
  - reflexivity.
  - exact epoch_valid.
  - reflexivity.
  - reflexivity.
Defined.

End TokenExtras.

Module ModelExtras.
Import Models Scenario FilterFacts.

(** *** Strings *)

Lemma length_append (s1 s2 : string) :
  String.length (s1 +:+ s2) = (String.length s1 + String.length s2)%nat.
Proof. induction s1 as [| c s1 IH]; simpl; [reflexivity | now rewrite IH]. Qed.

Lemma append_inv_tail (s1 s2 t : string) :
  s1 +:+ t = s2 +:+ t -> s1 = s2.
Proof.
  revert s2. induction s1 as [| c s1 IH]; intros [| c' s2] H.
  - reflexivity.
  - exfalso. apply (f_equal String.length) in H.
    rewrite (length_append "" t), (length_append (String c' s2) t) in H.
    simpl in H. lia.
  - exfalso. apply (f_equal String.length) in H.
    rewrite (length_append "" t), (length_append (String c s1) t) in H.
    simpl in H. lia.
  - change (String c (s1 +:+ t) = String c' (s2 +:+ t)) in H.
    injection H as -> H. f_equal. now apply IH.
Qed.

(** *** Authorization filters *)

Lemma tag_of_valid (org : ScopedApplicationOrganization) :
  valid_provider_type (provider_type org) ->
  tag_of org = "content_org:" +:+ short_name org.
Proof.
  intros H. apply valid_provider_type_content in H.
  unfold tag_of. rewrite join_colon, H. reflexivity.
Qed.

Lemma user_me_is_no_tag (orgs : list ScopedApplicationOrganization) :
  Forall (fun org => valid_provider_type (provider_type org)) orgs ->
  ~ In FILTER_USER_ME (map tag_of orgs).
Proof.
  intros Hvalid Hin. apply in_map_iff in Hin as (org & Htag & Horg).
  rewrite Forall_forall in Hvalid.
  rewrite tag_of_valid in Htag by (apply Hvalid, list_elem_of_In, Horg).
  discriminate Htag.
Qed.

Lemma tags_inj (l1 l2 : list ScopedApplicationOrganization) :
  Forall (fun org => valid_provider_type (provider_type org)) l1 ->
  Forall (fun org => valid_provider_type (provider_type org)) l2 ->
  map tag_of l1 = map tag_of l2 -> l1 = l2.
Proof.
  intros H1. revert l2.
  induction H1 as [| o1 l1 Ho1 _ IH]; intros l2 H2 Heq;
    destruct H2 as [| o2 l2 Ho2 H2]; simpl in Heq; try discriminate.
  - reflexivity.
  - injection Heq as Hhead Htail.
    rewrite !tag_of_valid in Hhead by assumption.
    simpl in Hhead. injection Hhead as Hname.
    change (short_name o1 = short_name o2) in Hname.
    apply valid_provider_type_content in Ho1, Ho2.
    f_equal; [| now apply IH].
    destruct o1, o2; simpl in *. now subst.
Qed.

Lemma authorization_filters_unfold (app : Application) :
  authorization_filters app
  = if String.eqb (authorization_grant_type app) GRANT_CLIENT_CREDENTIALS
    then map tag_of (organizations app) ++ [FILTER_USER_ME]
    else map tag_of (organizations app).
Proof. reflexivity. Qed.

(** X4. For an application whose organizations carry admitted provider
    types, [user:me] is among the filters exactly when the grant type is
    client-credentials: no organization can bring that tag in. *)
Theorem user_me_iff_client_credentials (app : Application) :
  Forall (fun org => valid_provider_type (provider_type org))
         (organizations app) ->
  In FILTER_USER_ME (authorization_filters app)
  <-> authorization_grant_type app = GRANT_CLIENT_CREDENTIALS.
Proof.
  intros Hvalid. rewrite authorization_filters_unfold.
  pose proof (user_me_is_no_tag _ Hvalid) as Hno.
  destruct (String.eqb_spec (authorization_grant_type app)
              GRANT_CLIENT_CREDENTIALS) as [Heq | Hne].
  - split; [auto |]. intros _. apply in_or_app. right. now left.
  - split; [contradiction | contradiction].
Qed.

Lemma user_me_iff_client_credentials_witness :
  In FILTER_USER_ME (authorization_filters app_two_organizations)
  /\ ~ In FILTER_USER_ME (authorization_filters app_authorization_code).
Proof.
  split.
  - apply (user_me_iff_client_credentials app_two_organizations).
    + repeat constructor.
    + reflexivity.
  - intros Hin.
    apply (user_me_iff_client_credentials app_authorization_code) in Hin.
    + discriminate Hin.
    + repeat constructor.
Defined.

(** X5. Under admitted provider types the filters lose nothing: two
    applications with the same filters have the same organizations, in
    the same order, and agree on whether the grant type is
    client-credentials. *)
Theorem authorization_filters_determine_organizations
  (a b : Application) :
  Forall (fun org => valid_provider_type (provider_type org))
         (organizations a) ->
  Forall (fun org => valid_provider_type (provider_type org))
         (organizations b) ->
  authorization_filters a = authorization_filters b ->
  organizations a = organizations b
  /\ (authorization_grant_type a = GRANT_CLIENT_CREDENTIALS
      <-> authorization_grant_type b = GRANT_CLIENT_CREDENTIALS).
Proof.
  intros Ha Hb Heq.
  assert (Hcc : authorization_grant_type a = GRANT_CLIENT_CREDENTIALS
                <-> authorization_grant_type b = GRANT_CLIENT_CREDENTIALS).
  { rewrite <- (user_me_iff_client_credentials a Ha),
            <- (user_me_iff_client_credentials b Hb), Heq. reflexivity. }
  split; [| exact Hcc].
  rewrite !authorization_filters_unfold in Heq.
  destruct (String.eqb_spec (authorization_grant_type a)
              GRANT_CLIENT_CREDENTIALS) as [Ea | Ea],
           (String.eqb_spec (authorization_grant_type b)
              GRANT_CLIENT_CREDENTIALS) as [Eb | Eb];
    try tauto.
  - apply app_inv_tail in Heq. now apply tags_inj.
  - now apply tags_inj.
Qed.

Lemma authorization_filters_determine_organizations_witness :
  organizations app_client_credentials
  = organizations (mk_application 9 "client3" "Other"
                     GRANT_CLIENT_CREDENTIALS true None [org1]).
Proof.
  apply (authorization_filters_determine_organizations
           app_client_credentials
           (mk_application 9 "client3" "Other" GRANT_CLIENT_CREDENTIALS
              true None [org1])).
  - repeat constructor.
  - repeat constructor.
  - reflexivity.
Defined.

(** *** The scopes column *)

Lemma length_join_comma (value : list string) :
  Forall (fun item => (String.length item <= scopes_base_max_length)%nat)
         value ->
  (String.length (join "," value)
   <= length value * (scopes_base_max_length + 1))%nat.
Proof.
  unfold scopes_base_max_length.
  induction 1 as [| item rest Hitem Hrest IH]; [simpl; lia |].
  destruct rest as [| item' rest'].
  - simpl. lia.
  - change (join "," (item :: item' :: rest'))
      with (item +:+ "," +:+ join "," (item' :: rest')).
    rewrite !length_append.
    change (String.length ",") with 1%nat.
    change (length (item :: item' :: rest'))
      with (S (length (item' :: rest'))).
    lia.
Qed.

(** X6. The declared [max_length] of the [scopes] column is enough for
    what the declared [size] and the [max_length] of the base field
    admit: a list of at most 25 scopes of at most 32 characters each,
    joined by commas, fits in 25 * 33 characters. *)
Theorem scopes_column_fits (value : list string) :
  scopes_items_valid value ->
  (String.length (scopes_column value) <= scopes_max_length)%nat.
Proof.
  intros [Hsize Hitems]. unfold scopes_column.
  pose proof (length_join_comma value Hitems) as Hlen.
  unfold scopes_size, scopes_max_length, scopes_base_max_length in *. lia.
Qed.

Lemma scopes_column_fits_witness :
  (String.length (scopes_column ["read"; "write"; "bogus"])
   <= scopes_max_length)%nat.
Proof.
  apply scopes_column_fits. split.
  - vm_compute. repeat constructor.
  - repeat constructor; vm_compute; repeat constructor.
Defined.

(** *** Representations *)

(** X7. The representations of a restricted and of a scoped application
    show the name of the application and nothing else of it: equal
    representations mean equal names, and a representation of the one
    kind is never one of the other; for one application, the
    representation of an organization determines its short name. *)
Theorem unicode_shows_the_name :
  (forall r1 r2 : RestrictedApplication,
      RestrictedApplication__unicode__ r1 = RestrictedApplication__unicode__ r2
      <-> name (restricted_application r1) = name (restricted_application r2))
  /\ (forall a1 a2 : Application,
         ScopedApplication__unicode__ a1 = ScopedApplication__unicode__ a2
         <-> name a1 = name a2)
  /\ (forall (r : RestrictedApplication) (a : Application),
         RestrictedApplication__unicode__ r <> ScopedApplication__unicode__ a)
  /\ (forall (a : Application) (o1 o2 : ScopedApplicationOrganization),
         ScopedApplicationOrganization__unicode__ a o1
         = ScopedApplicationOrganization__unicode__ a o2
         <-> short_name o1 = short_name o2).
Proof.
  split; [| split; [| split]].
  - intros r1 r2. unfold RestrictedApplication__unicode__. split.
    + intros H. apply (inj (String.app _)) in H.
      now apply append_inv_tail in H.
    + now intros ->.
  - intros a1 a2. unfold ScopedApplication__unicode__. split.
    + intros H. apply (inj (String.app _)) in H.
      now apply append_inv_tail in H.
    + now intros ->.
  - intros r a H. unfold RestrictedApplication__unicode__,
      ScopedApplication__unicode__ in H. simpl in H. discriminate H.
  - intros a o1 o2. unfold ScopedApplicationOrganization__unicode__. split.
    + intros H. do 3 apply (inj (String.app _)) in H.
      now apply append_inv_tail in H.
    + now intros ->.
Qed.

End ModelExtras.

(** ** Further properties of scopes.py *)

Module ScopeExtras.
Import Models Scopes Scenario.

(** X8. For [None], an instance of the application model or a plain
    string passed as the application, the declared scopes of an
    application never narrow the result of [get_available_scopes]: the
    call raises, or it returns every key of the registry (which it does
    only for a string that names no attribute of [str]). *)
Theorem declared_scopes_never_restrict
  (SCOPES : gmap string string) (str_attribute : string -> bool)
  (application : pyobj) :
  get_available_scopes SCOPES str_attribute application = Raise TypeError
  \/ get_available_scopes SCOPES str_attribute application
     = Raise (AttributeError "scopes")
  \/ (get_available_scopes SCOPES str_attribute application
      = Ok (dom SCOPES)
      /\ exists s, application = PyStr s /\ str_attribute s = false).
Proof.
  destruct application as [| s | a].
  - left. reflexivity.
  - unfold get_available_scopes. simpl.
    destruct (str_attribute s) eqn:E.
    + right. left. reflexivity.
    + right. right. split; [reflexivity | eauto].
  - left. reflexivity.
Qed.

End ScopeExtras.

(** ** Further properties of dot_overrides/views.py *)

Module ViewExtras.
Import PyDatetime Models Views ViewFacts.

Section Extras.
Context `{TK : Toolkit}.

Lemma get_body_auto (request : request) (kwargs : gmap string kwval)
  (w : world) :
  require_approval request = "auto_even_if_expired" ->
  get_body request kwargs w
  = (validated <- call_validate request ;;
     let '(scopes, credentials) := validated in
     descriptions <- of_result (getitems all_scopes scopes) ;;
     let kwargs := <["scopes_descriptions" := KwList descriptions]> kwargs in
     let kwargs := <["scopes" := KwList scopes]> kwargs in
     cid <- of_result (getitem credentials "client_id") ;;
     application <- objects_get cid ;;
     let kwargs := <["application" := KwApplication application]> kwargs in
     cid <- of_result (getitem credentials "client_id") ;;
     let kwargs := <["client_id" := KwStr cid]> kwargs in
     uri <- of_result (getitem credentials "redirect_uri") ;;
     let kwargs := <["redirect_uri" := KwStr uri]> kwargs in
     rtype <- of_result (getitem credentials "response_type") ;;
     let kwargs := <["response_type" := KwStr rtype]> kwargs in
     state <- of_result (getitem credentials "state") ;;
     let kwargs := <["state" := KwStr state]> kwargs in
     let oauth2_data := kwargs in
     let form := get_form oauth2_data in
     let kwargs := <["form" := KwForm form]> kwargs in
     if skip_authorization application then
       issued <-
         call_create request (join " " scopes) credentials true ;;
       let '(uri, headers, body, status) := issued in
       ret (HttpResponseUriRedirect uri)
     else
       py_assert true ;;;
       app <- of_result (getitem_application kwargs) ;;
       tokens <- accesstoken_set_filter (request_user request) app ;;
       returned <- for_token_in tokens request scopes credentials ;;
       match returned with
       | Some r => ret r
       | None => render_to_response kwargs
       end) w.
Proof.
  intros Hmode. unfold get_body. rewrite Hmode. reflexivity.
Qed.

Lemma validated_step {B} (request : request) (w : world)
  (scopes : list string) (credentials : gmap string string)
  (k : list string * gmap string string -> M B) :
  validate_authorization_request request w = Returned (scopes, credentials) ->
  bind (call_validate request) k w
  = after [EvValidate] (k (scopes, credentials) w).
Proof.
  intros H. apply bind_ok. unfold call_validate. now rewrite H.
Qed.

(** [getitems] raises [KeyError] for the first key that is missing. *)
Lemma getitems_first_missing {V} (d : gmap string V)
  (found : list string) (missing : string) (rest : list string) :
  Forall (fun key => is_Some (d !! key)) found ->
  d !! missing = None ->
  getitems d (found ++ missing :: rest) = Raise (KeyError missing).
Proof.
  intros Hfound Hmissing.
  induction Hfound as [| key found [v Hv] _ IH]; simpl.
  - unfold getitem. now rewrite Hmissing.
  - unfold getitem at 1. rewrite Hv. now rewrite IH.
Qed.

(** X9. In mode [auto_even_if_expired], when validation lets through a
    scope that the registry does not describe, the GET ends in the
    [KeyError] of the first such scope: it is not turned into an error
    response, and nothing is looked up, issued or rendered, whether or not
    the application skips authorization. *)
Theorem undescribed_scope_raises (request : request)
  (kwargs : gmap string kwval) (w : world)
  (described : list string) (missing : string) (rest : list string)
  (credentials : gmap string string) :
  require_approval request = "auto_even_if_expired" ->
  validate_authorization_request request w
  = Returned (described ++ missing :: rest, credentials) ->
  Forall (fun s => is_Some (all_scopes !! s)) described ->
  all_scopes !! missing = None ->
  get request kwargs w = (Raise (KeyError missing), w, [EvValidate]).
Proof.
  intros Hmode Hval Hdescribed Hmissing.
  apply get_lookup_failure; [exact I |].
  rewrite (get_body_auto request kwargs w Hmode).
  rewrite (validated_step _ _ _ _ _ Hval). cbv beta iota.
  rewrite (of_result_raise (KeyError missing))
    by (now apply getitems_first_missing).
  reflexivity.
Qed.

(** X10. In mode [auto_even_if_expired], when the validated client id is
    registered for no application the GET ends in [DoesNotExist], and when
    it is registered for several it ends in [MultipleObjectsReturned];
    neither is turned into an error response, and nothing is issued or
    rendered. *)
Theorem application_lookup_failure (request : request)
  (kwargs : gmap string kwval) (w : world)
  (scopes descriptions : list string) (credentials : gmap string string)
  (cid : string) :
  require_approval request = "auto_even_if_expired" ->
  validate_authorization_request request w = Returned (scopes, credentials) ->
  getitems all_scopes scopes = Ok descriptions ->
  credentials !! "client_id" = Some cid ->
  match filter (fun a => client_id a = cid) (applications w) with
  | [] => get request kwargs w = (Raise DoesNotExist, w, [EvValidate])
  | [_] => True
  | _ :: _ :: _ =>
      get request kwargs w = (Raise MultipleObjectsReturned, w, [EvValidate])
  end.
Proof.
  intros Hmode Hval Hdesc Hcid.
  destruct (filter (fun a => client_id a = cid) (applications w))
    as [| a [| a' others]] eqn:Happ; [| exact I |].
  - apply get_lookup_failure; [exact I |].
    rewrite (get_body_auto request kwargs w Hmode).
    rewrite (validated_step _ _ _ _ _ Hval). cbv beta iota.
    rewrite (of_result_ok descriptions) by exact Hdesc.
    rewrite (of_result_ok cid) by (apply getitem_ok, Hcid).
    rewrite (bind_raise (objects_get cid) _ w w DoesNotExist [])
      by (unfold objects_get; now rewrite Happ).
    reflexivity.
  - apply get_lookup_failure; [exact I |].
    rewrite (get_body_auto request kwargs w Hmode).
    rewrite (validated_step _ _ _ _ _ Hval). cbv beta iota.
    rewrite (of_result_ok descriptions) by exact Hdesc.
    rewrite (of_result_ok cid) by (apply getitem_ok, Hcid).
    rewrite (bind_raise (objects_get cid) _ w w MultipleObjectsReturned [])
      by (unfold objects_get; now rewrite Happ).
    reflexivity.
Qed.

(** X11. In mode [auto_even_if_expired], when the validated credentials
    lack [client_id], or lack one of [redirect_uri], [response_type] and
    [state] once the application is found, the GET ends in the [KeyError]
    of the first key that is missing: it is not turned into an error
    response and nothing is issued or rendered. *)
Theorem missing_credential_raises (request : request)
  (kwargs : gmap string kwval) (w : world)
  (scopes descriptions : list string) (credentials : gmap string string) :
  require_approval request = "auto_even_if_expired" ->
  validate_authorization_request request w = Returned (scopes, credentials) ->
  getitems all_scopes scopes = Ok descriptions ->
  (credentials !! "client_id" = None ->
   get request kwargs w = (Raise (KeyError "client_id"), w, [EvValidate]))
  /\ (forall (cid : string) (a : Application) (key : string),
         credentials !! "client_id" = Some cid ->
         filter (fun a => client_id a = cid) (applications w) = [a] ->
         first_missing_credential credentials = Some key ->
         get request kwargs w = (Raise (KeyError key), w, [EvValidate])).
Proof.
  intros Hmode Hval Hdesc. split.
  - intros Hcid. apply get_lookup_failure; [exact I |].
    rewrite (get_body_auto request kwargs w Hmode).
    rewrite (validated_step _ _ _ _ _ Hval). cbv beta iota.
    rewrite (of_result_ok descriptions) by exact Hdesc.
    rewrite (of_result_raise (KeyError "client_id"))
      by (unfold getitem; now rewrite Hcid).
    reflexivity.
  - intros cid a key Hcid Happ Hfirst.
    apply get_lookup_failure; [exact I |].
    rewrite (get_body_auto request kwargs w Hmode).
    rewrite (validated_step _ _ _ _ _ Hval). cbv beta iota.
    rewrite (of_result_ok descriptions) by exact Hdesc.
    rewrite (of_result_ok cid) by (apply getitem_ok, Hcid).
    rewrite (bind_ok (objects_get cid) _ w w a [])
      by (unfold objects_get; now rewrite Happ).
    rewrite after_nil.
    rewrite (of_result_ok cid) by (apply getitem_ok, Hcid).
    unfold first_missing_credential in Hfirst. cbn [List.find] in Hfirst.
    destruct (credentials !! "redirect_uri") as [uri |] eqn:Huri.
    2: { rewrite bool_decide_eq_true_2 in Hfirst by reflexivity.
         injection Hfirst as <-.
         rewrite (of_result_raise (KeyError "redirect_uri"))
           by (unfold getitem; now rewrite Huri).
         reflexivity. }
    rewrite bool_decide_eq_false_2 in Hfirst by discriminate.
    rewrite (of_result_ok uri) by (apply getitem_ok, Huri).
    destruct (credentials !! "response_type") as [rtype |] eqn:Hrtype.
    2: { rewrite bool_decide_eq_true_2 in Hfirst by reflexivity.
         injection Hfirst as <-.
         rewrite (of_result_raise (KeyError "response_type"))
           by (unfold getitem; now rewrite Hrtype).
         reflexivity. }
    rewrite bool_decide_eq_false_2 in Hfirst by discriminate.
    rewrite (of_result_ok rtype) by (apply getitem_ok, Hrtype).
    destruct (credentials !! "state") as [state |] eqn:Hstate.
    2: { rewrite bool_decide_eq_true_2 in Hfirst by reflexivity.
         injection Hfirst as <-.
         rewrite (of_result_raise (KeyError "state"))
           by (unfold getitem; now rewrite Hstate).
         reflexivity. }
    rewrite bool_decide_eq_false_2 in Hfirst by discriminate.
    discriminate Hfirst.
Qed.

(** X12. The outcome of the loop over the past authorizations does not
    depend on the order in which the store returns the tokens: any
    rearrangement of them gives the same response, store and calls, with
    issuance called once however many tokens allow the scopes. *)
Theorem scan_order_is_irrelevant (tokens tokens' : list AccessToken)
  (request : request) (scopes : list string)
  (credentials : gmap string string) (w : world) :
  tokens ≡ₚ tokens' ->
  for_token_in tokens request scopes credentials w
  = for_token_in tokens' request scopes credentials w
  /\ (calls is_issue_call
        (for_token_in tokens request scopes credentials w).2 <= 1)%nat.
Proof.
  intros Hperm.
  destruct (covers_Exists_or_Forall tokens scopes) as [Hex | Hall].
  - rewrite (for_token_in_hit tokens request scopes credentials w Hex).
    rewrite Hperm in Hex.
    rewrite (for_token_in_hit tokens' request scopes credentials w Hex).
    split; [reflexivity |].
    unfold bind, grant, bind, call_create.
    destruct (create_authorization_response request (join " " scopes)
                credentials true w)
      as [[[[[uri headers] body] status] | error] w1];
      unfold calls; simpl; lia.
  - rewrite (for_token_in_miss tokens request scopes credentials w Hall).
    rewrite Hperm in Hall.
    rewrite (for_token_in_miss tokens' request scopes credentials w Hall).
    split; [reflexivity |]. unfold calls; simpl; lia.
Qed.

(** X13. In mode [auto_even_if_expired] a GET validates first, never
    calls the handler of the base class, scans the tokens at most once,
    never both renders the form and calls issuance, calls issuance with
    [allow=True] only, and leaves the store as it was unless it called
    issuance. *)
Theorem auto_mode_invariants (request : request)
  (kwargs : gmap string kwval) (w : world) :
  require_approval request = "auto_even_if_expired" ->
  head (get request kwargs w).2 = Some EvValidate
  /\ calls is_base_call (get request kwargs w).2 = 0%nat
  /\ (calls is_token_scan (get request kwargs w).2 <= 1)%nat
  /\ (calls is_render (get request kwargs w).2
      + calls is_issue_call (get request kwargs w).2 <= 1)%nat
  /\ Forall issues_with_allow (get request kwargs w).2
  /\ (calls is_issue_call (get request kwargs w).2 = 0%nat ->
      (get request kwargs w).1.2 = w).
Proof.
  intros Hmode.
  destruct (get_auto_outcome request kwargs w Hmode)
    as [error0 Hval | e scopes credentials Hval He
        | v scan uri body headers status w1 Hv Hscan Hcreate
        | v scan error0 w1 Hv Hscan Hcreate
        | v Hv Hskip Hall]; simpl.
  - unfold calls; simpl. repeat split; try lia; repeat constructor.
  - unfold calls; simpl. repeat split; try lia; repeat constructor.
  - destruct (skip_authorization (v_application v));
      [subst scan | destruct Hscan as [-> _]];
      unfold calls; simpl; repeat split; try lia; try discriminate;
      repeat constructor.
  - destruct (skip_authorization (v_application v));
      [subst scan | destruct Hscan as [-> _]];
      unfold calls; simpl; repeat split; try lia; try discriminate;
      repeat constructor.
  - unfold calls; simpl. repeat split; try lia; repeat constructor.
Qed.

(** *** The scope string handed to issuance, read back from a token *)

Lemma app_empty_r (s : string) : s +:+ "" = s.
Proof.
  induction s as [| c s IH]; [reflexivity |].
  change (String c s +:+ "") with (String c (s +:+ "")). now rewrite IH.
Qed.

Lemma app_assoc_string (a b c : string) :
  (a +:+ b) +:+ c = a +:+ (b +:+ c).
Proof.
  induction a as [| x a IH]; [reflexivity |].
  change (String x ((a +:+ b) +:+ c) = String x (a +:+ (b +:+ c))).
  f_equal. exact IH.
Qed.

Lemma split_from_word (s word rest : string) :
  no_space s = true ->
  split_from word (s +:+ rest) = split_from (word +:+ s) rest.
Proof.
  revert word. induction s as [| c s IH]; intros word Hs.
  - change ("" +:+ rest) with rest. now rewrite app_empty_r.
  - simpl in Hs. apply andb_prop in Hs as [Hc Hs].
    apply negb_true_iff in Hc.
    change (String c s +:+ rest) with (String c (s +:+ rest)).
    cbn [split_from]. rewrite Hc, (IH _ Hs), app_assoc_string.
    reflexivity.
Qed.

Lemma split_join (scopes : list string) :
  Forall scope_token scopes -> split (join " " scopes) = scopes.
Proof.
  induction 1 as [| x rest [Hne Hx] Hrest IH]; [reflexivity |].
  unfold split in *. destruct rest as [| y rest].
  - change (join " " [x]) with x.
    rewrite <- (app_empty_r x) at 1.
    rewrite (split_from_word x "" "" Hx).
    change ("" +:+ x) with x. destruct x; [contradiction | reflexivity].
  - change (join " " (x :: y :: rest))
      with (x +:+ String (Ascii.ascii_of_nat 32) (join " " (y :: rest))).
    rewrite (split_from_word x "" _ Hx).
    change ("" +:+ x) with x.
    destruct x as [| c x]; [contradiction |].
    cbn [split_from]. change (is_space (Ascii.ascii_of_nat 32)) with true. cbv iota.
    now rewrite IH.
Qed.

(** X14. A token whose recorded scope string is the string the view
    hands to issuance for a list of scope names (of code points below
    256, none empty, none with a character that [split()] separates on)
    covers every request for scopes among them: in mode
    [auto_even_if_expired], without [skip_authorization], such a request
    of the same user for the same application is answered by issuance
    with [allow=True], not by the consent form. *)
Theorem granted_scopes_are_not_asked_again (request : request)
  (kwargs : gmap string kwval) (w : world) (v : validation)
  (token : AccessToken) (granted : list string) :
  require_approval request = "auto_even_if_expired" ->
  passes_validation request w v ->
  skip_authorization (v_application v) = false ->
  Forall scope_token granted ->
  scope token = join " " granted ->
  (forall s : string, s ∈ v_scopes v -> s ∈ granted) ->
  token ∈ access_tokens w ->
  token_user token = request_user request ->
  token_application token = id (v_application v) ->
  split (scope token) = granted
  /\ calls is_render (get request kwargs w).2 = 0%nat
  /\ calls is_issue_call (get request kwargs w).2 = 1%nat
  /\ Forall issues_with_allow (get request kwargs w).2.
Proof.
  intros Hmode Hv Hskip Hgranted Hscope Hsub Hin Huser Happ.
  assert (Hsplit : split (scope token) = granted)
    by (rewrite Hscope; now apply split_join).
  split; [exact Hsplit |].
  assert (Hex : Exists (fun t => covers t (v_scopes v))
                       (prior_tokens request (v_application v) w)).
  { apply Exists_exists. exists token. split.
    - apply prior_tokens_elem; auto.
    - intros s Hs. rewrite Hsplit. now apply Hsub. }
  rewrite (get_hit request kwargs w v Hmode Hv Hskip Hex).
  destruct (create_authorization_response request
              (join " " (v_scopes v)) (v_credentials v) true w)
    as [[[[[uri headers] body] status] | error] w1];
    unfold calls; simpl; repeat split; repeat constructor.
Qed.

End Extras.
End ViewExtras.

(** ** The further properties at concrete requests *)

Module ExtraScenarios.
Import PyDatetime Models Views Scenario ViewFacts ViewExtras ScenarioFacts.

Lemma read_described :
  Forall (fun s => is_Some (@all_scopes lenient_toolkit !! s)) ["read"].
Proof. repeat constructor. exists "Read access". reflexivity. Qed.

(** A scope without a description, for an application that skips
    authorization. *)
Lemma undescribed_scope_raises_witness :
  get (TK:=lenient_toolkit) auto_read ∅ (store app_in_house [])
  = (Raise (KeyError "admin"), store app_in_house [], [EvValidate]).
Proof.
  apply (undescribed_scope_raises (TK:=lenient_toolkit) auto_read ∅
           (store app_in_house []) ["read"] "admin" ["write"] credentials1).
  - vm_compute. reflexivity.
  - reflexivity.
  - exact read_described.
  - reflexivity.
Defined.

(** The client id registered for no application, and for two. *)
Lemma application_lookup_failure_witness :
  get (TK:=toolkit) auto_read ∅ store_unregistered
  = (Raise DoesNotExist, store_unregistered, [EvValidate])
  /\ get (TK:=toolkit) auto_read ∅ store_duplicate
     = (Raise MultipleObjectsReturned, store_duplicate, [EvValidate]).
Proof.
  split.
  - apply (application_lookup_failure (TK:=toolkit) auto_read ∅
             store_unregistered ["read"] ["Read access"] credentials1
             "client1"); reflexivity || exact auto_read_mode.
  - apply (application_lookup_failure (TK:=toolkit) auto_read ∅
             store_duplicate ["read"] ["Read access"] credentials1
             "client1"); reflexivity || exact auto_read_mode.
Defined.

(** Credentials without [client_id], and without [state]. *)
Lemma missing_credential_raises_witness :
  get (TK:=anonymous_toolkit) auto_read ∅
    (store app_authorization_code [])
  = (Raise (KeyError "client_id"), store app_authorization_code [],
     [EvValidate])
  /\ get (TK:=stateless_toolkit) auto_read ∅
       (store app_authorization_code [])
     = (Raise (KeyError "state"), store app_authorization_code [],
        [EvValidate]).
Proof.
  split.
  - refine (proj1 (missing_credential_raises (TK:=anonymous_toolkit)
                     auto_read ∅ (store app_authorization_code [])
                     ["read"] ["Read access"]
                     (delete "client_id" credentials1) _ _ _) _).
    + vm_compute. reflexivity.
    + reflexivity.
    + reflexivity.
    + reflexivity.
  - refine (proj2 (missing_credential_raises (TK:=stateless_toolkit)
                     auto_read ∅ (store app_authorization_code [])
                     ["read"] ["Read access"]
                     (delete "state" credentials1) _ _ _)
              "client1" app_authorization_code "state" _ _ _).
    + vm_compute. reflexivity.
    + reflexivity.
    + reflexivity.
    + reflexivity.
    + reflexivity.
    + vm_compute. reflexivity.
Defined.

(** Two tokens in either order. *)
Lemma scan_order_is_irrelevant_witness :
  for_token_in (TK:=toolkit) [live_token; restricted_token] auto_read
    ["read"] credentials1 (store app_authorization_code [])
  = for_token_in (TK:=toolkit) [restricted_token; live_token] auto_read
      ["read"] credentials1 (store app_authorization_code []).
Proof.
  apply (scan_order_is_irrelevant (TK:=toolkit)
           [live_token; restricted_token] [restricted_token; live_token]).
  apply perm_swap.
Defined.

Lemma auto_mode_invariants_witness :
  (calls is_render
     (get (TK:=toolkit) auto_read ∅
        (store app_authorization_code [restricted_token])).2
   + calls is_issue_call
       (get (TK:=toolkit) auto_read ∅
          (store app_authorization_code [restricted_token])).2
   <= 1)%nat.
Proof.
  apply (auto_mode_invariants (TK:=toolkit) auto_read ∅
           (store app_authorization_code [restricted_token])
           auto_read_mode).
Defined.

Lemma three_scope_tokens : Forall scope_token ["read"; "write"; "email"].
Proof. repeat constructor; discriminate. Qed.

(** The three scopes of P5, once a token records them. *)
Lemma granted_scopes_are_not_asked_again_witness :
  calls is_render
    (get (TK:=toolkit) auto_read_write_email ∅
       (store app_authorization_code
          [mk_token 42 7 expiry_2018 "read write email"])).2 = 0%nat
  /\ calls is_issue_call
       (get (TK:=toolkit) auto_read_write_email ∅
          (store app_authorization_code
             [mk_token 42 7 expiry_2018 "read write email"])).2 = 1%nat.
Proof.
  destruct (granted_scopes_are_not_asked_again (TK:=toolkit)
              auto_read_write_email ∅
              (store app_authorization_code
                 [mk_token 42 7 expiry_2018 "read write email"])
              (validated_read_write_email app_authorization_code)
              (mk_token 42 7 expiry_2018 "read write email")
              ["read"; "write"; "email"])
    as (_ & Hrender & Hissue & _).
  - exact auto_read_write_email_mode.
  - apply validated_read_write_email_passes. reflexivity.
  - reflexivity.
  - exact three_scope_tokens.
  - reflexivity.
  - intros s Hs. exact Hs.
  - apply list_elem_of_here.
  - reflexivity.
  - reflexivity.
  - split; assumption.
Defined.

End ExtraScenarios.
